(** * TextTutor (app.py): a shallow embedding of the upload / ask pipeline

    The script is a Streamlit page.  Every user interaction re-runs [main]
    from the top; the only data that survives a rerun is
    [st.session_state].  The development below embeds

    - [get_pdf_text]        (text extraction, app.py 12-22),
    - [get_text_chunks]     (chunking through CharacterTextSplitter, 30-41),
    - [get_vector_store] and [get_convo_chain] (43-54),
    - [handle_user_input]   (56-70),
    - [main]                (73-119),

    with Python exceptions as an explicit result type and the session
    state, the rendered page and the log of generation requests threaded
    through a small state-and-exception monad. *)

From stdpp Require Import gmap strings list fin_maps.
From Stdlib Require Import Ascii ZArith Lia.

Open Scope Z_scope.

(** ** Python exceptions and results *)

Inductive exn :=
  | AttributeError
  | IndexError
  | TypeError
  | PdfReadError
  | EmbeddingError
  | GenerationError.

Inductive result (A : Type) :=
  | Ok (a : A)
  | Raise (e : exn).
Arguments Ok {A} a.
Arguments Raise {A} e.

Global Instance result_ret : MRet result := λ A a, Ok a.
Global Instance result_bind : MBind result := λ A B f r,
  match r with
  | Ok a => f a
  | Raise e => Raise e
  end.

(** ** Python strings

    A [str] is modelled by [string]; a character stands for one code point
    below 256, and [len] is the number of code points. *)

Module Str.

Definition len (s : string) : Z := Z.of_nat (String.length s).

(** [str.isspace] on the code points below 256. *)
Definition is_whitespace (c : ascii) : bool :=
  match c with
  | "009" | "010" | "011" | "012" | "013"
  | "028" | "029" | "030" | "031" | " " | "133" | "160" => true
  | _ => false
  end%char.

Fixpoint lstrip (s : string) : string :=
  match s with
  | EmptyString => EmptyString
  | String c s' => if is_whitespace c then lstrip s' else s
  end.

Fixpoint rstrip (s : string) : string :=
  match s with
  | EmptyString => EmptyString
  | String c s' =>
      match rstrip s' with
      | EmptyString => if is_whitespace c then EmptyString else String c EmptyString
      | r => String c r
      end
  end.

(** [s.strip()] *)
Definition strip (s : string) : string := lstrip (rstrip s).

(** [list(s)]: the one-character strings of [s]. *)
Fixpoint chars (s : string) : list string :=
  match s with
  | EmptyString => []
  | String c s' => String c EmptyString :: chars s'
  end.

(** [s.split(sep)] for a non-empty [sep]: the pieces between the
    non-overlapping occurrences of [sep], scanned left to right.  [skip]
    counts the characters of an occurrence still to be passed over and
    [acc] holds the characters of the current piece. *)
Fixpoint split_go (sep : string) (skip : nat) (acc : string) (s : string)
  : list string :=
  match s with
  | EmptyString => [acc]
  | String c s' =>
      match skip with
      | S k => split_go sep k acc s'
      | O =>
          if String.prefix sep s
          then acc :: split_go sep (String.length sep - 1) EmptyString s'
          else split_go sep O (acc +:+ String c EmptyString) s'
      end
  end.

Definition split (sep s : string) : list string :=
  split_go sep O EmptyString s.

(** [sep.join(l)] *)
Definition join (sep : string) (l : list string) : string :=
  String.concat sep l.

(** [s.replace(old, new)] for a non-empty [old]. *)
Definition replace (old new s : string) : string :=
  join new (split old s).

(** [c * n] *)
Fixpoint repeat (c : ascii) (n : nat) : string :=
  match n with
  | O => EmptyString
  | S n' => String c (repeat c n')
  end.

(** [sep in s] *)
Fixpoint occurs (sep s : string) : bool :=
  match s with
  | EmptyString => String.prefix sep EmptyString
  | String _ s' => String.prefix sep s || occurs sep s'
  end.

End Str.

(** ** Text extraction (app.py 12-22)

    What PyPDF2 does with an upload is data of the model: [PdfReader]
    either raises on a stream it cannot read or gives the pages in the
    document's order, and [extract_text] gives a page's text, which is the
    empty string for a page without a text layer. *)

Record page := { extract_text : string }.

Inductive uploaded_file :=
  | Unreadable
  | Readable (pages : list page).

Definition PdfReader (pdf : uploaded_file) : result (list page) :=
  match pdf with
  | Unreadable => Raise PdfReadError
  | Readable pages => Ok pages
  end.

(** The inner loop, [for page in all_pages: text += page.extract_text()]. *)
Fixpoint pages_loop (all_pages : list page) (text : string) : string :=
  match all_pages with
  | [] => text
  | page :: rest => pages_loop rest (text +:+ extract_text page)
  end.

(** The outer loop, [for pdf in pdf_files]. *)
Fixpoint files_loop (pdf_files : list uploaded_file) (text : string)
  : result string :=
  match pdf_files with
  | [] => Ok text
  | pdf :: rest =>
      all_pages ← PdfReader pdf;
      files_loop rest (pages_loop all_pages text)
  end.

Definition get_pdf_text (pdf_files : list uploaded_file) : result string :=
  files_loop pdf_files "".

(** ** Chunking (app.py 30-41)

    [get_text_chunks] configures a [CharacterTextSplitter] and calls its
    [split_text]. *)

Record CharacterTextSplitter := {
  _separator : string;
  _chunk_size : Z;
  _chunk_overlap : Z;
}.

(** Modelled from the spec: the body of [CharacterTextSplitter.split_text]
    (the langchain text splitter the script imports) is not under src/.
    Section 4.2 gives its algorithm: split on the separator, pack the units
    greedily into chunks of at most [S] characters, carry the tail of a
    chunk of at most [O] characters over into the next one, keep a unit
    longer than [S] whole.  The definitions from [_split_text] to
    [split_text] spell that algorithm out the way the splitter runs it:
    empty units are dropped, a chunk is its units joined by the separator
    and stripped of surrounding whitespace, a chunk that strips to nothing
    is not emitted, and the tail carried over is made of whole units. *)
Definition _split_text (text separator : string) : list string :=
  let splits :=
    if bool_decide (separator = "") then Str.chars text
    else Str.split separator text in
  filter (λ s, s ≠ "") splits.

(** Modelled from the spec: [_join_docs] of the splitter, not under src/.
    A chunk is its units joined by the separator and stripped; [None] when
    nothing is left. *)
Definition _join_docs (docs : list string) (separator : string)
  : option string :=
  let text := Str.strip (Str.join separator docs) in
  if bool_decide (text = "") then None else Some text.

(** [separator_len if len(current_doc) > n else 0] *)
Definition sep_if_longer (n : nat) (current_doc : list string)
    (separator_len : Z) : Z :=
  if bool_decide (n < length current_doc)%nat then separator_len else 0.

(** Modelled from the spec: the inner loop of the splitter's
    [_merge_splits], not under src/, which carries the overlap forward.
    Units are popped from the front of [current_doc] while it is longer
    than the overlap, or while it cannot take the next unit of length
    [_len].  Popping from an empty list is Python's IndexError. *)
Fixpoint pop_front (self : CharacterTextSplitter) (separator_len _len : Z)
    (total : Z) (current_doc : list string) : result (Z * list string) :=
  if bool_decide
       (total > _chunk_overlap self
        ∨ (total + _len + sep_if_longer 0 current_doc separator_len
             > _chunk_size self
           ∧ total > 0))
  then
    match current_doc with
    | [] => Raise IndexError
    | d0 :: rest =>
        pop_front self separator_len _len
          (total - (Str.len d0 + sep_if_longer 1 current_doc separator_len))
          rest
    end
  else Ok (total, current_doc).

(** The loop state of [_merge_splits]. *)
Record merge_state := {
  docs : list string;
  current_doc : list string;
  total : Z;
}.

(** Modelled from the spec: one iteration of [for d in splits] in the
    splitter's [_merge_splits], not under src/, the greedy packing.  When
    [d] does not fit, the units in hand are emitted as a chunk and the
    overlap is kept; then [d] is taken. *)
Definition merge_step (self : CharacterTextSplitter) (separator : string)
    (st : merge_state) (d : string) : result merge_state :=
  let separator_len := Str.len separator in
  let _len := Str.len d in
  '(docs1, total1, current_doc1) ←
    (if bool_decide
          (total st + _len + sep_if_longer 0 (current_doc st) separator_len
             > _chunk_size self)
     then
       if bool_decide (0 < length (current_doc st))%nat
       then
         let docs1 :=
           match _join_docs (current_doc st) separator with
           | Some doc => docs st ++ [doc]
           | None => docs st
           end in
         '(total1, current_doc1) ←
           pop_front self separator_len _len (total st) (current_doc st);
         Ok (docs1, total1, current_doc1)
       else Ok (docs st, total st, current_doc st)
     else Ok (docs st, total st, current_doc st));
  let current_doc2 := current_doc1 ++ [d] in
  Ok {| docs := docs1;
        current_doc := current_doc2;
        total := total1 + (_len + sep_if_longer 1 current_doc2 separator_len) |}.

(** Modelled from the spec: the loop [for d in splits] of the splitter's
    [_merge_splits], not under src/. *)
Fixpoint merge_loop (self : CharacterTextSplitter) (separator : string)
    (splits : list string) (st : merge_state) : result merge_state :=
  match splits with
  | [] => Ok st
  | d :: rest =>
      st' ← merge_step self separator st d;
      merge_loop self separator rest st'
  end.

(** Modelled from the spec: the splitter's [_merge_splits], not under
    src/; after the loop the units still in hand make the last chunk. *)
Definition _merge_splits (self : CharacterTextSplitter)
    (splits : list string) (separator : string) : result (list string) :=
  st ← merge_loop self separator splits
         {| docs := []; current_doc := []; total := 0 |};
  Ok (match _join_docs (current_doc st) separator with
      | Some doc => docs st ++ [doc]
      | None => docs st
      end).

(** Modelled from the spec: the splitter's [split_text], not under src/;
    split on the separator, then pack. *)
Definition split_text (self : CharacterTextSplitter) (text : string)
  : result (list string) :=
  _merge_splits self (_split_text text (_separator self)) (_separator self).

(** The splitter of app.py 32-37: separator "\n", size 1000, overlap 200. *)
Definition text_splitter : CharacterTextSplitter :=
  {| _separator := String "010" EmptyString;
     _chunk_size := 1000;
     _chunk_overlap := 200 |}.

Definition get_text_chunks (raw_text : string) : result (list string) :=
  split_text text_splitter raw_text.

(** ** The services and constants the script imports *)

Inductive message :=
  | HumanMessage (content : string)
  | AIMessage (content : string).

Definition content (m : message) : string :=
  match m with
  | HumanMessage c => c
  | AIMessage c => c
  end.

(** A generation request: the question, the retrieved chunks and the
    conversation so far. *)
Record prompt := {
  question : string;
  retrieved_context : list string;
  history : list message;
}.

(** The embedding index and the hosted language model, over the type
    [Index] of built indexes.  Both are remote and can fail;
    [FAISS_from_texts] embeds the chunks and builds the index, [retrieve]
    gives the chunks nearest to a query, [generate] is one call of the
    language model. *)
Class Backends (Index : Type) := {
  FAISS_from_texts : list string → result Index;
  retrieve : Index → string → list string;
  generate : prompt → result string;
}.

(** The constants of the module htmlTemplates, which is not under src/. *)
Class Templates := {
  css : string;
  bot_template : string;
  user_template : string;
}.

Section Script.
Context {Index : Type} `{B : Backends Index} `{T : Templates}.

(** ** Index and conversation engine (app.py 24-28, 43-54) *)

Definition get_vector_store (text_chunks : list string) : result Index :=
  FAISS_from_texts text_chunks.

(** The chain object: its retriever and the message buffer of its
    memory, two messages (question, answer) per turn. *)
Record ConversationalRetrievalChain := {
  retriever : Index;
  memory : list message;
}.

(** The memory is created here, empty. *)
Definition get_convo_chain (vector_store : Index)
  : ConversationalRetrievalChain :=
  {| retriever := vector_store; memory := [] |}.

(** ** Session state, page and the monad of a script run *)

Inductive value :=
  | VNone
  | VChain (c : ConversationalRetrievalChain)
  | VHistory (h : list message).

(** Python truthiness of a stored value. *)
Definition truthy (v : value) : bool :=
  match v with
  | VNone => false
  | VChain _ => true
  | VHistory h => bool_decide (h ≠ [])
  end.

(** [session_state] is what Streamlit keeps between reruns, [written] is
    what [st.write] has put on the page, and [llm_calls] logs the
    requests sent to the generation service, oldest first. *)
Record world := {
  session_state : gmap string value;
  written : list string;
  llm_calls : list prompt;
}.

Definition M (A : Type) : Type := world → result A * world.

Global Instance M_ret : MRet M := λ A a w, (Ok a, w).
Global Instance M_bind : MBind M := λ A B f m w,
  match m w with
  | (Ok a, w') => f a w'
  | (Raise e, w') => (Raise e, w')
  end.

Definition lift {A} (r : result A) : M A := λ w, (r, w).

(** [st.session_state.key]; a missing key is an AttributeError. *)
Definition getattr (key : string) : M value := λ w,
  match session_state w !! key with
  | Some v => (Ok v, w)
  | None => (Raise AttributeError, w)
  end.

(** [st.session_state.key = v] *)
Definition setattr (key : string) (v : value) : M unit := λ w,
  (Ok (), {| session_state := <[key := v]> (session_state w);
             written := written w;
             llm_calls := llm_calls w |}).

(** [key not in st.session_state] *)
Definition not_in_session_state (key : string) : M bool := λ w,
  (Ok (bool_decide (session_state w !! key = None)), w).

Definition st_write (html : string) : M unit := λ w,
  (Ok (), {| session_state := session_state w;
             written := written w ++ [html];
             llm_calls := llm_calls w |}).

(** One request to the generation service, logged before it is sent. *)
Definition llm (p : prompt) : M string := λ w,
  (generate p, {| session_state := session_state w;
                  written := written w;
                  llm_calls := llm_calls w ++ [p] |}).

Record response := {
  chat_history : list message;
  answer : string;
}.

(** Modelled from the spec: calling the chain runs library code that is
    not under src/.  Section 4.4 gives the steps of [ask]: retrieve the
    chunks for the question, build one request from the chunks, the whole
    history and the question, call the generation service, and only when
    it has answered append the turn to the history.  The chain is a
    mutable object; the updated chain is returned next to the response
    and the caller stores it back where the object lives. *)
Definition chain_call (c : ConversationalRetrievalChain)
    (user_input : string) : M (response * ConversationalRetrievalChain) :=
  let docs := retrieve (retriever c) user_input in
  ans ← llm {| question := user_input;
               retrieved_context := docs;
               history := memory c |};
  let memory' := memory c ++ [HumanMessage user_input; AIMessage ans] in
  mret ({| chat_history := memory'; answer := ans |},
        {| retriever := retriever c; memory := memory' |}).

(** ** handle_user_input (app.py 56-70) *)

(** [for i, message in enumerate(chat_history)] *)
Fixpoint render_loop (i : nat) (chat : list message) : M unit :=
  match chat with
  | [] => mret ()
  | message :: rest =>
      (if bool_decide (i `mod` 2 = 0)%nat
       then st_write (Str.replace "{{MSG}}" (content message) user_template)
       else st_write (Str.replace "{{MSG}}" (content message) bot_template));;
      render_loop (S i) rest
  end.

Definition handle_user_input (user_input : string) : M unit :=
  convo_chain ← getattr "convo_chain";
  if negb (truthy convo_chain)
  then st_write "Please upload a PDF first!"
  else
    match convo_chain with
    | VChain c =>
        '(response, c') ← chain_call c user_input;
        setattr "convo_chain" (VChain c');;
        setattr "chat_history" (VHistory (chat_history response));;
        render_loop 0 (chat_history response)
    | _ => lift (Raise TypeError)
    end.

(** ** main (app.py 73-119) *)

(** What one rerun gets from the widgets: the text box, the files in the
    uploader and whether the Upload button was clicked. *)
Record run := {
  user_input : string;
  pdf_files : list uploaded_file;
  upload_clicked : bool;
}.

Definition main (r : run) : M unit :=
  (if bool_decide (user_input r ≠ "")
   then handle_user_input (user_input r)
   else mret ());;
  st_write css;;
  missing ← not_in_session_state "convo_chain";
  (if missing : bool then setattr "convo_chain" VNone else mret ());;
  missing ← not_in_session_state "chat_history";
  (if missing : bool then setattr "convo_chain" VNone else mret ());;
  if upload_clicked r
  then
    raw_text ← lift (get_pdf_text (pdf_files r));
    text_chunks ← lift (get_text_chunks raw_text);
    vector_store ← lift (get_vector_store text_chunks);
    setattr "convo_chain" (VChain (get_convo_chain vector_store))
  else mret ().

(** A rerun starts from an empty page; an exception ends the run and
    whatever it had stored in the session state stays. *)
Definition rerun (w : world) (r : run) : world :=
  (main r {| session_state := session_state w;
             written := [];
             llm_calls := llm_calls w |}).2.

Definition session (runs : list run) (w : world) : world :=
  foldl rerun w runs.

Definition fresh : world :=
  {| session_state := ∅; written := []; llm_calls := [] |}.

End Script.

(** ** Concrete services, for running the script on examples *)

(** An index that is the list of its chunks and answers every query with
    its first four; a model that echoes the question. *)
Definition demo_backends : Backends (list string) :=
  {| FAISS_from_texts := λ texts, Ok texts;
     retrieve := λ index _, take 4 index;
     generate := λ p, Ok ("re: " +:+ question p) |}.

(** The same services while the embedding backend cannot be reached. *)
Definition offline_backends : Backends (list string) :=
  {| FAISS_from_texts := λ _, Raise EmbeddingError;
     retrieve := λ index _, take 4 index;
     generate := λ p, Ok ("re: " +:+ question p) |}.

Definition demo_templates : Templates :=
  {| css := "<style></style>";
     bot_template := "<div class=bot>{{MSG}}</div>";
     user_template := "<div class=user>{{MSG}}</div>" |}.

Definition newline : string := String "010" EmptyString.

Definition textbook : uploaded_file :=
  Readable [ {| extract_text := "Chapter 1" +:+ newline |};
             {| extract_text := "Sets and maps." |} ].

(** A scanned document: two pages, no text layer. *)
Definition scan : uploaded_file :=
  Readable [ {| extract_text := "" |}; {| extract_text := "" |} ].

Definition click_upload (files : list uploaded_file) : run :=
  {| user_input := ""; pdf_files := files; upload_clicked := true |}.

Definition change_files (files : list uploaded_file) : run :=
  {| user_input := ""; pdf_files := files; upload_clicked := false |}.

Definition submit_question (q : string) (files : list uploaded_file) : run :=
  {| user_input := q; pdf_files := files; upload_clicked := false |}.

Definition notes : uploaded_file :=
  Readable [ {| extract_text := "Graphs and trees." |} ].

(** The session right after a first successful upload, and the same
    session after one question. *)
Definition ready_world : @world (list string) :=
  session (B := demo_backends) (T := demo_templates)
    [click_upload [textbook]] fresh.

Definition asked_world : @world (list string) :=
  session (B := demo_backends) (T := demo_templates)
    [click_upload [textbook]; submit_question "What is a set?" [textbook]]
    fresh.

(** A session in which nothing has been uploaded yet. *)
Definition empty_world : @world (list string) :=
  session (B := demo_backends) (T := demo_templates) [change_files []] fresh.

(** A document in which no page has any text. *)
Definition no_extractable_text (pdf : uploaded_file) : Prop :=
  match pdf with
  | Unreadable => False
  | Readable pages => Forall (λ p, extract_text p = "") pages
  end.

(** A loop state of [_merge_splits] that respects the chunk size: the
    units in hand are non-empty, their running total is within the size,
    and so is every chunk emitted so far. *)
Definition within_size (self : CharacterTextSplitter) (st : merge_state)
  : Prop :=
  Forall (λ u, u ≠ "") (current_doc st)
  ∧ total st ≤ _chunk_size self
  ∧ Forall (λ c, Str.len c ≤ _chunk_size self) (docs st).

(** The same services while the language model cannot be reached. *)
Definition mute_backends : Backends (list string) :=
  {| FAISS_from_texts := λ texts, Ok texts;
     retrieve := λ index _, take 4 index;
     generate := λ _, Raise GenerationError |}.

(** What the script keeps under "convo_chain" once the key is stored: None
    or a chain, never anything else. *)
Definition engine_slot_ok {Index : Type} (w : @world Index) : Prop :=
  match session_state w !! "convo_chain" with
  | Some VNone | Some (VChain _) => True
  | _ => False
  end.

(** The block [handle_user_input] writes for the message at position [i]
    of the history (app.py 66-70). *)
Definition rendered `{T : Templates} (i : nat) (m : message) : string :=
  Str.replace "{{MSG}}" (content m)
    (if bool_decide (i `mod` 2 = 0)%nat then user_template else bot_template).

(** A chunk in the making, by units: the units carried over from the chunk
    before it, and the units that are new in it. *)
Definition group : Type := list string * list string.

Definition units_of (g : group) : list string := g.1 ++ g.2.

(** The units [carried] may stay in front of the next unit [d]: their
    joined length is within the overlap and, unless it is zero, leaves room
    for [d] within the chunk size.  It is the negation of the condition of
    the loop of [pop_front]. *)
Definition fits_overlap (self : CharacterTextSplitter) (separator d : string)
    (carried : list string) : Prop :=
  Str.len (Str.join separator carried) ≤ _chunk_overlap self
  ∧ (Str.len (Str.join separator carried) + Str.len d
       + sep_if_longer 0 carried (Str.len separator) ≤ _chunk_size self
     ∨ Str.len (Str.join separator carried) ≤ 0).

(** [g'] is the chunk after [g]: [g] was closed because the first new unit
    [d] of [g'] did not fit, and [g'] starts with the longest trailing run
    of the units of [g] that may stay in front of [d]. *)
Definition follows (self : CharacterTextSplitter) (separator : string)
    (g g' : group) : Prop :=
  ∃ d rest,
    g'.2 = d :: rest
    ∧ Str.len (Str.join separator (units_of g)) + Str.len d
        + sep_if_longer 0 (units_of g) (Str.len separator) > _chunk_size self
    ∧ g'.1 `suffix_of` units_of g
    ∧ fits_overlap self separator d g'.1
    ∧ ∀ front mid,
        units_of g = front ++ mid ++ g'.1 → mid ≠ [] →
        ¬ fits_overlap self separator d (mid ++ g'.1).

(** Neighbours in the list are related by [R]. *)
Inductive chain {A : Type} (R : A → A → Prop) : list A → Prop :=
  | chain_nil : chain R []
  | chain_one (x : A) : chain R [x]
  | chain_cons (x y : A) (l : list A) :
      R x y → chain R (y :: l) → chain R (x :: y :: l).

(** An index backend that, like FAISS, cannot build an index from no
    chunk at all. *)
Definition strict_backends : Backends (list string) :=
  {| FAISS_from_texts := λ texts,
       match texts with
       | [] => Raise IndexError
       | _ => Ok texts
       end;
     retrieve := λ index _, take 4 index;
     generate := λ p, Ok ("re: " +:+ question p) |}.

(** * Properties *)

(** ** Strings *)

Module StrFacts.

Lemma app_cons (c : ascii) (s t : string) :
  String c s +:+ t = String c (s +:+ t).
Proof. reflexivity. Qed.

Lemma app_nil_r (s : string) : s +:+ "" = s.
Proof. induction s as [|c s IH]; [done|]. by rewrite app_cons, IH. Qed.

Lemma app_assoc (s1 s2 s3 : string) :
  (s1 +:+ s2) +:+ s3 = s1 +:+ (s2 +:+ s3).
Proof. induction s1 as [|c s1 IH]; [done|]. by rewrite !app_cons, IH. Qed.

Lemma len_app (s1 s2 : string) :
  Str.len (s1 +:+ s2) = Str.len s1 + Str.len s2.
Proof.
  unfold Str.len. induction s1 as [|c s1 IH].
  - change ("" +:+ s2) with s2. cbn [String.length]. lia.
  - rewrite app_cons. cbn [String.length]. lia.
Qed.

Lemma len_nonneg (s : string) : 0 ≤ Str.len s.
Proof. unfold Str.len. lia. Qed.

Lemma len_pos (s : string) : s ≠ "" → 1 ≤ Str.len s.
Proof. unfold Str.len. destruct s; [done|]. cbn. lia. Qed.

Lemma len_lstrip (s : string) : Str.len (Str.lstrip s) ≤ Str.len s.
Proof.
  unfold Str.len. induction s as [|c s IH]; [done|].
  cbn [Str.lstrip]. destruct (Str.is_whitespace c); cbn [String.length]; lia.
Qed.

Lemma len_rstrip (s : string) : Str.len (Str.rstrip s) ≤ Str.len s.
Proof.
  unfold Str.len. induction s as [|c s IH]; [done|].
  cbn [Str.rstrip]. destruct (Str.rstrip s) as [|c' r].
  - destruct (Str.is_whitespace c); cbn [String.length] in *; lia.
  - cbn [String.length] in *. lia.
Qed.

Lemma len_strip (s : string) : Str.len (Str.strip s) ≤ Str.len s.
Proof.
  unfold Str.strip. pose proof (len_lstrip (Str.rstrip s)).
  pose proof (len_rstrip s). lia.
Qed.

Lemma join_empty_cons (x : string) (l : list string) :
  Str.join "" (x :: l) = x +:+ Str.join "" l.
Proof.
  unfold Str.join. destruct l as [|y l]; cbn [String.concat].
  - by rewrite app_nil_r.
  - done.
Qed.

(** Without an occurrence of the separator the text is one piece. *)
Lemma split_go_no_occurrence (sep acc s : string) :
  Str.occurs sep s = false → Str.split_go sep 0 acc s = [acc +:+ s].
Proof.
  revert acc. induction s as [|c s IH]; intros acc Hocc.
  - cbn. by rewrite app_nil_r.
  - cbn [Str.occurs] in Hocc. apply orb_false_iff in Hocc as [Hp Hocc].
    cbn [Str.split_go]. rewrite Hp, (IH _ Hocc), app_assoc. done.
Qed.

Lemma split_no_occurrence (sep s : string) :
  Str.occurs sep s = false → Str.split sep s = [s].
Proof. intros H. unfold Str.split. by rewrite split_go_no_occurrence. Qed.

End StrFacts.

(** ** Text extraction *)

Lemma pages_loop_join (all_pages : list page) (text : string) :
  pages_loop all_pages text
  = text +:+ Str.join "" (extract_text <$> all_pages).
Proof.
  revert text. induction all_pages as [|p rest IH]; intros text.
  - cbn. by rewrite StrFacts.app_nil_r.
  - cbn [pages_loop fmap list_fmap]. rewrite IH, StrFacts.join_empty_cons.
    apply StrFacts.app_assoc.
Qed.

Lemma files_loop_readable (documents : list (list page)) (text : string) :
  files_loop (Readable <$> documents) text
  = Ok (text +:+ Str.join ""
          ((λ pages, Str.join "" (extract_text <$> pages)) <$> documents)).
Proof.
  revert text. induction documents as [|pages rest IH]; intros text.
  - cbn. by rewrite StrFacts.app_nil_r.
  - cbn [fmap list_fmap files_loop PdfReader mbind result_bind].
    fold (fmap (M:=list) Readable rest). rewrite IH, pages_loop_join.
    rewrite StrFacts.join_empty_cons. by rewrite StrFacts.app_assoc.
Qed.

Lemma files_loop_app (files1 files2 : list uploaded_file) (text : string) :
  files_loop (files1 ++ files2) text
  = (text' ← files_loop files1 text; files_loop files2 text').
Proof.
  revert text. induction files1 as [|pdf rest IH]; intros text; [done|].
  cbn [app files_loop]. destruct (PdfReader pdf) as [pages|e]; [|done].
  cbn [mbind result_bind]. apply IH.
Qed.

Lemma files_loop_unreadable (pdf_files : list uploaded_file) (text : string) :
  Unreadable ∈ pdf_files → files_loop pdf_files text = Raise PdfReadError.
Proof.
  revert text. induction pdf_files as [|pdf rest IH]; intros text Hin.
  - by apply elem_of_nil in Hin.
  - apply elem_of_cons in Hin as [<- | Hin]; [done|].
    cbn [files_loop]. destruct pdf as [|pages]; [done|].
    cbn [PdfReader mbind result_bind]. by apply IH.
Qed.

Lemma pages_loop_no_text (all_pages : list page) (text : string) :
  Forall (λ p, extract_text p = "") all_pages →
  pages_loop all_pages text = text.
Proof.
  intros H. revert text. induction H as [|p rest Hp _ IH]; intros text; [done|].
  cbn [pages_loop]. by rewrite Hp, StrFacts.app_nil_r.
Qed.

(** C10: no files give the empty string, and for readable documents the
    result is the texts of the pages concatenated, page after page within a
    document and document after document in the order given. *)
Theorem get_pdf_text_concatenates :
  get_pdf_text [] = Ok ""
  ∧ ∀ documents : list (list page),
      get_pdf_text (Readable <$> documents)
      = Ok (Str.join ""
              ((λ pages, Str.join "" (extract_text <$> pages)) <$> documents)).
Proof.
  split; [done|]. intros documents. unfold get_pdf_text.
  by rewrite files_loop_readable.
Qed.

(** C8, as the script has it: an unreadable document makes the extraction
    fail with the reader's error, while a readable document without any
    text raises nothing and leaves the result as if it had not been
    uploaded. *)
Theorem get_pdf_text_failures (files1 files2 : list uploaded_file)
    (pdf : uploaded_file) :
  (pdf = Unreadable →
   get_pdf_text (files1 ++ pdf :: files2) = Raise PdfReadError)
  ∧ (no_extractable_text pdf →
     get_pdf_text (files1 ++ pdf :: files2) = get_pdf_text (files1 ++ files2)).
Proof.
  split.
  - intros ->. apply files_loop_unreadable, elem_of_app. right. by left.
  - intros Hpdf. unfold get_pdf_text. rewrite !files_loop_app.
    destruct (files_loop files1 "") as [text|e]; [|done].
    cbn [mbind result_bind]. destruct pdf as [|pages]; [done|].
    cbn [files_loop PdfReader mbind result_bind].
    by rewrite pages_loop_no_text.
Qed.

Lemma get_pdf_text_failures_witness :
  get_pdf_text ([textbook] ++ Unreadable :: [scan]) = Raise PdfReadError
  ∧ get_pdf_text ([textbook] ++ scan :: [textbook])
    = get_pdf_text ([textbook] ++ [textbook]).
Proof.
  split.
  - apply (get_pdf_text_failures [textbook] [scan] Unreadable). reflexivity.
  - apply (get_pdf_text_failures [textbook] [textbook] scan).
    cbn. repeat constructor.
Defined.

(** C8 as stated fails: a scanned document without any text is extracted
    without an error, as the empty string. *)
Lemma get_pdf_text_scan_no_error :
  no_extractable_text scan
  ∧ get_pdf_text [scan] = Ok ""
  ∧ ¬ ∃ e, get_pdf_text [scan] = Raise e.
Proof.
  split; [cbn; repeat constructor|]. split; [reflexivity|].
  intros [e He]. discriminate He.
Qed.

(** ** Chunking *)

Section Merge.
Variable self : CharacterTextSplitter.
Variable separator : string.

Local Abbreviation separator_len := (Str.len separator).
Local Abbreviation joined cur := (Str.len (Str.join separator cur)).

Lemma sep_if_longer_snoc (cur : list string) (d : string) :
  sep_if_longer 1 (cur ++ [d]) separator_len
  = sep_if_longer 0 cur separator_len.
Proof.
  unfold sep_if_longer. rewrite length_app. cbn [length].
  repeat case_bool_decide; done || lia.
Qed.

Lemma joined_cons (d : string) (rest : list string) :
  joined (d :: rest)
  = Str.len d + sep_if_longer 1 (d :: rest) separator_len + joined rest.
Proof.
  unfold sep_if_longer, Str.join. destruct rest as [|d' rest].
  - cbn [String.concat length]. rewrite bool_decide_eq_false_2 by lia.
    change (Str.len "") with 0. lia.
  - cbn [String.concat length]. rewrite bool_decide_eq_true_2 by lia.
    rewrite !StrFacts.len_app. lia.
Qed.

Lemma joined_snoc (cur : list string) (d : string) :
  joined (cur ++ [d])
  = joined cur + (Str.len d + sep_if_longer 0 cur separator_len).
Proof.
  induction cur as [|d0 cur IH].
  - cbn [app]. rewrite joined_cons. unfold sep_if_longer. cbn [length].
    rewrite !bool_decide_eq_false_2 by lia. lia.
  - cbn [app]. rewrite !joined_cons, IH.
    unfold sep_if_longer. cbn [length]. rewrite length_app. cbn [length].
    repeat case_bool_decide; lia.
Qed.

Lemma joined_nonneg (cur : list string) : 0 ≤ joined cur.
Proof. apply StrFacts.len_nonneg. Qed.

(** A list of non-empty units whose joined length is not positive is
    empty. *)
Lemma joined_nonpos (cur : list string) :
  Forall (λ u, u ≠ "") cur → joined cur ≤ 0 → cur = [].
Proof.
  intros Hne Hle. destruct Hne as [|d rest Hd Hrest]; [done|].
  rewrite joined_cons in Hle. pose proof (StrFacts.len_pos d Hd).
  pose proof (joined_nonneg rest). pose proof (StrFacts.len_nonneg separator).
  unfold sep_if_longer in Hle. case_bool_decide; lia.
Qed.

(** The inner loop never pops from an empty list: it returns a trailing
    run of the units, with their joined length, and the loop condition is
    false there. *)
Lemma pop_front_spec (_len : Z) (cur : list string) (t : Z) :
  0 ≤ _chunk_overlap self →
  t = joined cur →
  ∃ cur',
    pop_front self separator_len _len t cur = Ok (joined cur', cur')
    ∧ cur' `suffix_of` cur
    ∧ joined cur' ≤ _chunk_overlap self
    ∧ (joined cur' + _len + sep_if_longer 0 cur' separator_len
         ≤ _chunk_size self
       ∨ joined cur' ≤ 0).
Proof.
  intros HO. revert t. induction cur as [|d0 rest IH]; intros t ->.
  - exists []. cbn [pop_front]. change (joined []) with 0.
    rewrite bool_decide_eq_false_2 by lia.
    split; [done|]. split; [done|]. lia.
  - cbn [pop_front]. case_bool_decide as Hcond.
    + destruct (IH (joined (d0 :: rest)
                    - (Str.len d0
                       + sep_if_longer 1 (d0 :: rest) separator_len)))
        as (cur' & Hrun & Hsuf & Hov & Hfit).
      { rewrite joined_cons. lia. }
      exists cur'. split; [done|]. split; [by apply suffix_cons_r|]. done.
    + exists (d0 :: rest). split; [done|]. split; [done|]. lia.
Qed.

Lemma _join_docs_len (cur : list string) (doc : string) :
  _join_docs cur separator = Some doc → Str.len doc ≤ joined cur.
Proof.
  unfold _join_docs. case_bool_decide; [done|]. intros [= <-].
  apply StrFacts.len_strip.
Qed.

(** One iteration of the packing loop.  It never raises; the units kept
    in front of [d] are a trailing run of the current units, either all
    of them or a run of joined length at most the overlap; at most one
    chunk is emitted, made of the current units. *)
Lemma merge_step_spec (st : merge_state) (d : string) :
  0 ≤ _chunk_overlap self →
  total st = joined (current_doc st) →
  ∃ carried docs1,
    merge_step self separator st d
    = Ok {| docs := docs1;
            current_doc := carried ++ [d];
            total := joined (carried ++ [d]) |}
    ∧ carried `suffix_of` current_doc st
    ∧ (carried = current_doc st ∨ joined carried ≤ _chunk_overlap self)
    ∧ (docs1 = docs st
       ∨ ∃ doc, docs1 = docs st ++ [doc]
                ∧ _join_docs (current_doc st) separator = Some doc)
    ∧ (joined (carried ++ [d]) ≤ _chunk_size self
       ∨ joined carried ≤ 0).
Proof.
  intros HO Htot. unfold merge_step.
  case_bool_decide as Hover; [case_bool_decide as Hcur|].
  - destruct (pop_front_spec (Str.len d) (current_doc st) (total st) HO Htot)
      as (carried & Hrun & Hsuf & Hov & Hfit).
    rewrite Hrun. cbn [mbind result_bind].
    eexists carried, _. split.
    { rewrite joined_snoc, sep_if_longer_snoc. reflexivity. }
    split; [done|]. split; [by right|]. split.
    + destruct (_join_docs (current_doc st) separator) as [doc|] eqn:Hdoc;
        [right; by exists doc | by left].
    + rewrite joined_snoc. lia.
  - cbn [mbind result_bind]. exists (current_doc st), (docs st). split.
    { rewrite Htot, joined_snoc, sep_if_longer_snoc. reflexivity. }
    split; [done|]. split; [by left|]. split; [by left|].
    right. destruct (current_doc st) as [|d0 rest]; [|cbn in Hcur; lia].
    change (joined []) with 0. lia.
  - cbn [mbind result_bind]. exists (current_doc st), (docs st). split.
    { rewrite Htot, joined_snoc, sep_if_longer_snoc. reflexivity. }
    split; [done|]. split; [by left|]. split; [by left|].
    left. rewrite joined_snoc, <- Htot. lia.
Qed.

Local Abbreviation within_size := (within_size self).

(** With non-empty units of at most [_chunk_size] characters, the units
    in hand never exceed the chunk size and neither does a chunk. *)
Lemma merge_step_within_size (st st' : merge_state) (d : string) :
  0 ≤ _chunk_overlap self →
  total st = joined (current_doc st) →
  d ≠ "" → Str.len d ≤ _chunk_size self →
  within_size st →
  merge_step self separator st d = Ok st' →
  within_size st'.
Proof.
  intros HO Htot Hd Hlen (Hne & Hsize & Hdocs) Hstep.
  destruct (merge_step_spec st d HO Htot)
    as (carried & docs1 & Hrun & Hsuf & _ & Hdocs1 & Hfit).
  rewrite Hrun in Hstep. injection Hstep as <-.
  assert (Forall (λ u, u ≠ "") carried) as Hcarried.
  { destruct Hsuf as [front Hfront]. rewrite Hfront in Hne.
    by apply Forall_app in Hne as [_ ?]. }
  split; [|split]; cbn [current_doc total docs].
  - apply Forall_app. split; [done|]. by constructor.
  - destruct Hfit as [?|Hzero]; [done|].
    rewrite (joined_nonpos carried Hcarried Hzero). cbn [app].
    unfold Str.join. by cbn [String.concat].
  - destruct Hdocs1 as [->|(doc & -> & Hdoc)]; [done|].
    apply Forall_app. split; [done|]. constructor; [|done].
    apply _join_docs_len in Hdoc. lia.
Qed.

Lemma merge_loop_spec (splits : list string) (st : merge_state) :
  0 ≤ _chunk_overlap self →
  total st = joined (current_doc st) →
  ∃ st',
    merge_loop self separator splits st = Ok st'
    ∧ total st' = joined (current_doc st')
    ∧ (Forall (λ u, u ≠ "" ∧ Str.len u ≤ _chunk_size self) splits →
       within_size st → within_size st').
Proof.
  intros HO. revert st. induction splits as [|d rest IH]; intros st Htot.
  - exists st. by cbn.
  - cbn [merge_loop].
    destruct (merge_step_spec st d HO Htot)
      as (carried & docs1 & Hrun & _).
    pose proof Hrun as Hstep. rewrite Hrun. cbn [mbind result_bind].
    destruct (IH {| docs := docs1;
                    current_doc := carried ++ [d];
                    total := joined (carried ++ [d]) |} eq_refl)
      as (st' & Hloop & Htot' & Hsize').
    exists st'. split; [done|]. split; [done|].
    intros Hunits Hst. apply Forall_cons in Hunits as [[Hd Hlen] Hrest].
    apply Hsize'; [done|].
    by apply (merge_step_within_size st _ d).
Qed.

End Merge.

Lemma _split_text_units (text separator : string) :
  Forall (λ u, u ≠ "") (_split_text text separator).
Proof.
  unfold _split_text. apply Forall_forall. intros u Hu.
  by apply list_elem_of_filter in Hu as [? _].
Qed.

(** The splitter never raises, whatever the text. *)
Lemma split_text_total (self : CharacterTextSplitter) (text : string) :
  0 ≤ _chunk_overlap self → ∃ chunks, split_text self text = Ok chunks.
Proof.
  intros HO. unfold split_text, _merge_splits.
  destruct (merge_loop_spec self (_separator self)
              (_split_text text (_separator self))
              {| docs := []; current_doc := []; total := 0 |} HO eq_refl)
    as (st & -> & _).
  cbn [mbind result_bind]. eauto.
Qed.

Lemma _merge_splits_within_size (self : CharacterTextSplitter)
    (splits : list string) (separator : string) :
  0 ≤ _chunk_overlap self → 0 ≤ _chunk_size self →
  Forall (λ u, u ≠ "" ∧ Str.len u ≤ _chunk_size self) splits →
  ∃ chunks,
    _merge_splits self splits separator = Ok chunks
    ∧ Forall (λ c, Str.len c ≤ _chunk_size self) chunks.
Proof.
  intros HO HS Hunits. unfold _merge_splits.
  destruct (merge_loop_spec self separator splits
              {| docs := []; current_doc := []; total := 0 |} HO eq_refl)
    as (st & -> & Htot & Hsize).
  destruct Hsize as (Hne & Hle & Hdocs); [done|by repeat split|].
  cbn [mbind result_bind]. eexists. split; [done|].
  destruct (_join_docs (current_doc st) separator) as [doc|] eqn:Hdoc; [|done].
  apply Forall_app. split; [done|]. constructor; [|done].
  apply _join_docs_len in Hdoc. lia.
Qed.

(** A text without the separator is one unit, and one chunk at most. *)
Lemma split_text_no_separator (self : CharacterTextSplitter) (text : string) :
  _separator self ≠ "" → text ≠ "" →
  Str.occurs (_separator self) text = false →
  split_text self text
  = Ok (if bool_decide (Str.strip text = "") then [] else [Str.strip text]).
Proof.
  intros Hsep Htext Hocc. unfold split_text, _split_text.
  rewrite bool_decide_eq_false_2 by done.
  rewrite StrFacts.split_no_occurrence by done.
  rewrite filter_cons_True by done. rewrite filter_nil.
  unfold _merge_splits. cbn [merge_loop]. unfold merge_step.
  cbn [current_doc docs total length].
  rewrite (bool_decide_eq_false_2 (0 < 0)%nat) by lia.
  case_bool_decide; cbn [mbind result_bind current_doc docs app];
    unfold _join_docs, Str.join; cbn [String.concat];
    by case_bool_decide.
Qed.

(** The empty text gives no chunk and no error, for every splitter. *)
Lemma split_text_empty (self : CharacterTextSplitter) :
  split_text self "" = Ok [].
Proof.
  unfold split_text, _split_text. case_bool_decide; reflexivity.
Qed.

(** C3, as the splitter has it: a text of 2500 characters without the
    separator is a single unit, so it comes back as one chunk, the text
    stripped of surrounding whitespace, or as no chunk when it is all
    whitespace. *)
Theorem no_separator_one_chunk (text : string) :
  String.length text = 2500%nat →
  Str.occurs newline text = false →
  get_text_chunks text
  = Ok (if bool_decide (Str.strip text = "") then [] else [Str.strip text]).
Proof.
  intros Hlen Hocc. apply split_text_no_separator; [done| |done].
  intros ->. discriminate Hlen.
Qed.

Lemma no_separator_one_chunk_witness :
  get_text_chunks (Str.repeat "a" 2500)
  = Ok (if bool_decide (Str.strip (Str.repeat "a" 2500) = "")
        then [] else [Str.strip (Str.repeat "a" 2500)]).
Proof.
  apply (no_separator_one_chunk (Str.repeat "a" 2500)); vm_compute; reflexivity.
Defined.

(** C3 as stated fails: 2500 letters without a newline come back as one
    chunk of 2500 characters, not as three chunks of 1000, 1000 and 700. *)
Lemma no_separator_not_three_chunks :
  String.length (Str.repeat "a" 2500) = 2500%nat
  ∧ Str.occurs newline (Str.repeat "a" 2500) = false
  ∧ get_text_chunks (Str.repeat "a" 2500) = Ok [Str.repeat "a" 2500]
  ∧ ¬ ∃ c1 c2 c3, get_text_chunks (Str.repeat "a" 2500) = Ok [c1; c2; c3].
Proof.
  assert (get_text_chunks (Str.repeat "a" 2500) = Ok [Str.repeat "a" 2500])
    as Hrun by (vm_compute; reflexivity).
  split; [vm_compute; reflexivity|]. split; [vm_compute; reflexivity|].
  split; [done|]. intros (c1 & c2 & c3 & H). rewrite Hrun in H. discriminate H.
Qed.

(** ** Overlap between neighbouring chunks *)

Lemma chain_snoc {A : Type} (R : A → A → Prop) (l : list A) (x : A) :
  chain R l → (∀ y, last l = Some y → R y x) → chain R (l ++ [x]).
Proof.
  induction 1 as [|y|y z l Hyz Hl IH]; intros Hlast; cbn [app].
  - constructor.
  - constructor; [by apply Hlast|constructor].
  - constructor; [done|]. apply IH. intros y' Hy'. apply Hlast.
    by rewrite last_cons_cons.
Qed.

Lemma chain_reverse {A : Type} (R : A → A → Prop) (l : list A) :
  chain (flip R) l → chain R (reverse l).
Proof.
  induction 1 as [|x|x y l Hxy Hl IH].
  - constructor.
  - constructor.
  - rewrite reverse_cons. apply chain_snoc; [done|].
    intros z Hz. rewrite reverse_cons, last_snoc in Hz. by injection Hz as <-.
Qed.

Section Groups.
Variable self : CharacterTextSplitter.
Variable separator : string.
Hypothesis overlap_nonneg : 0 ≤ _chunk_overlap self.

Local Abbreviation joined cur := (Str.len (Str.join separator cur)).
Local Abbreviation chunk_of := (λ g : group, _join_docs (units_of g) separator).

(** The inner loop stops at the longest trailing run of the units that may
    stay in front of the next unit [d]. *)
Lemma pop_front_maximal (d : string) (cur : list string) (t : Z) :
  t = joined cur →
  ∃ carried,
    pop_front self (Str.len separator) (Str.len d) t cur
    = Ok (joined carried, carried)
    ∧ carried `suffix_of` cur
    ∧ fits_overlap self separator d carried
    ∧ ∀ front mid,
        cur = front ++ mid ++ carried → mid ≠ [] →
        ¬ fits_overlap self separator d (mid ++ carried).
Proof.
  revert t. induction cur as [|d0 rest IH]; intros t ->.
  - exists []. cbn [pop_front]. change (joined []) with 0.
    rewrite bool_decide_eq_false_2 by lia.
    split; [done|]. split; [done|]. split.
    + unfold fits_overlap. change (joined []) with 0. lia.
    + intros front mid Heq Hmid. by destruct front, mid.
  - cbn [pop_front]. case_bool_decide as Hcond.
    + destruct (IH (joined (d0 :: rest)
                    - (Str.len d0
                       + sep_if_longer 1 (d0 :: rest) (Str.len separator))))
        as (carried & Hrun & Hsuf & Hfit & Hmax).
      { rewrite joined_cons. lia. }
      exists carried. split; [done|]. split; [by apply suffix_cons_r|].
      split; [done|]. intros front mid Heq Hmid.
      destruct front as [|f0 front].
      * cbn [app] in Heq. rewrite <- Heq. unfold fits_overlap. lia.
      * injection Heq as _ Heq. by apply (Hmax front mid).
    + exists (d0 :: rest). split; [done|]. split; [done|].
      split; [unfold fits_overlap; lia|].
      intros front mid Heq Hmid. apply (f_equal length) in Heq.
      rewrite !length_app in Heq. destruct mid; [done|]. cbn in Heq. lia.
Qed.

(** One iteration of the packing loop either takes [d] into the chunk in
    the making, or closes that chunk because [d] does not fit and starts
    the next one with the longest run that may stay in front of [d]. *)
Lemma merge_step_cases (st : merge_state) (d : string) :
  total st = joined (current_doc st) →
  ∃ st1,
    merge_step self separator st d = Ok st1
    ∧ total st1 = joined (current_doc st1)
    ∧ ((current_doc st1 = current_doc st ++ [d] ∧ docs st1 = docs st)
       ∨ ∃ carried,
           current_doc st1 = carried ++ [d]
           ∧ docs st1 = match _join_docs (current_doc st) separator with
                        | Some doc => docs st ++ [doc]
                        | None => docs st
                        end
           ∧ joined (current_doc st) + Str.len d
               + sep_if_longer 0 (current_doc st) (Str.len separator)
             > _chunk_size self
           ∧ carried `suffix_of` current_doc st
           ∧ fits_overlap self separator d carried
           ∧ ∀ front mid,
               current_doc st = front ++ mid ++ carried → mid ≠ [] →
               ¬ fits_overlap self separator d (mid ++ carried)).
Proof.
  intros Htot. unfold merge_step.
  case_bool_decide as Hover; [case_bool_decide as Hcur|].
  - destruct (pop_front_maximal d (current_doc st) (total st) Htot)
      as (carried & Hrun & Hsuf & Hfit & Hmax).
    rewrite Hrun. cbn [mbind result_bind]. eexists. split; [done|].
    cbn [total current_doc docs]. split.
    { by rewrite joined_snoc, sep_if_longer_snoc. }
    right. exists carried. rewrite <- Htot. done.
  - cbn [mbind result_bind]. eexists. split; [done|].
    cbn [total current_doc docs]. split; [|by left].
    by rewrite Htot, joined_snoc, sep_if_longer_snoc.
  - cbn [mbind result_bind]. eexists. split; [done|].
    cbn [total current_doc docs]. split; [|by left].
    by rewrite Htot, joined_snoc, sep_if_longer_snoc.
Qed.

Lemma follows_more (g : group) (c n : list string) (d : string) :
  follows self separator g (c, n) → follows self separator g (c, n ++ [d]).
Proof.
  intros (d0 & rest & Hn & Hover & Hsuf & Hfit & Hmax). cbn [fst snd] in *.
  exists d0, (rest ++ [d]). cbn [fst snd]. by rewrite Hn.
Qed.

(** The packing loop, in terms of groups: [hist] holds the groups closed
    so far, the last closed first, and [(c, n)] is the group in the
    making. *)
Lemma merge_loop_groups (splits : list string) (st : merge_state)
    (c n : list string) (hist : list group) (seen : list string) :
  current_doc st = c ++ n →
  total st = joined (current_doc st) →
  docs st = omap chunk_of (reverse hist) →
  chain (flip (follows self separator)) ((c, n) :: hist) →
  concat (snd <$> reverse ((c, n) :: hist)) = seen →
  (∀ g, last ((c, n) :: hist) = Some g → g.1 = []) →
  ∃ st' c' n' hist',
    merge_loop self separator splits st = Ok st'
    ∧ current_doc st' = c' ++ n'
    ∧ docs st' = omap chunk_of (reverse hist')
    ∧ chain (flip (follows self separator)) ((c', n') :: hist')
    ∧ concat (snd <$> reverse ((c', n') :: hist')) = seen ++ splits
    ∧ (∀ g, last ((c', n') :: hist') = Some g → g.1 = []).
Proof.
  revert st c n hist seen.
  induction splits as [|d rest IH];
    intros st c n hist seen Hcur Htot Hdocs Hchain Hseen Hfirst.
  - exists st, c, n, hist. by rewrite app_nil_r.
  - cbn [merge_loop].
    destruct (merge_step_cases st d Htot)
      as (st1 & -> & Htot1 & [[Hcur1 Hdocs1] | Hclose]).
    + cbn [mbind result_bind].
      destruct (IH st1 c (n ++ [d]) hist (seen ++ [d]))
        as (st' & c' & n' & hist' & Hrun & H1 & H2 & H3 & H4 & H5).
      * by rewrite Hcur1, Hcur, <- app_assoc.
      * done.
      * by rewrite Hdocs1.
      * inversion Hchain as [| |x y l Hxy Hl]; subst; [constructor|].
        constructor; [|done]. by apply follows_more.
      * rewrite reverse_cons, fmap_app, concat_app in Hseen |- *.
        rewrite <- Hseen. cbn. by rewrite !app_nil_r, app_assoc.
      * intros g Hg. destruct hist as [|g0 hist].
        { injection Hg as <-. by apply (Hfirst (c, n)). }
        apply Hfirst. by rewrite last_cons_cons in Hg |- *.
      * exists st', c', n', hist'. by rewrite <- app_assoc in H4.
    + destruct Hclose as (carried & Hcur1 & Hdocs1 & Hover & Hsuf & Hfit & Hmax).
      cbn [mbind result_bind].
      destruct (IH st1 carried [d] ((c, n) :: hist) (seen ++ [d]))
        as (st' & c' & n' & hist' & Hrun & H1 & H2 & H3 & H4 & H5).
      * done.
      * done.
      * rewrite Hdocs1, reverse_cons, omap_app, <- Hdocs.
        cbn [omap list_omap]. unfold units_of. cbn [fst snd].
        rewrite <- Hcur. destruct (_join_docs (current_doc st) separator);
          by rewrite ?app_nil_r.
      * constructor; [|done]. exists d, []. unfold units_of. cbn [fst snd].
        by rewrite <- Hcur.
      * rewrite reverse_cons, fmap_app, concat_app, Hseen. by cbn.
      * intros g Hg. apply Hfirst. by rewrite last_cons_cons in Hg.
      * exists st', c', n', hist'. by rewrite <- app_assoc in H4.
Qed.

(** What [_merge_splits] returns, by groups: every chunk is the stripped
    join of a group, the new units of the groups are the units in order,
    nothing is carried into the first group, and each group follows the
    one before it. *)
Lemma _merge_splits_groups (splits : list string) :
  ∃ groups,
    _merge_splits self splits separator = Ok (omap chunk_of groups)
    ∧ concat (snd <$> groups) = splits
    ∧ (∀ g, head groups = Some g → g.1 = [])
    ∧ chain (follows self separator) groups.
Proof.
  unfold _merge_splits.
  destruct (merge_loop_groups splits
              {| docs := []; current_doc := []; total := 0 |} [] [] [] [])
    as (st & c & n & hist & -> & Hcur & Hdocs & Hchain & Hseen & Hfirst);
    [done|done|done|constructor|done| |].
  { by intros g [= <-]. }
  exists (reverse ((c, n) :: hist)). cbn [mbind result_bind].
  split; [|split; [done|split]].
  - rewrite reverse_cons, omap_app, <- Hdocs. cbn [omap list_omap].
    unfold units_of. cbn [fst snd]. rewrite <- Hcur.
    destruct (_join_docs (current_doc st) separator);
          by rewrite ?app_nil_r.
  - intros g Hg. rewrite head_reverse in Hg. by apply Hfirst.
  - by apply chain_reverse.
Qed.

End Groups.




(** ** The script *)

Section ScriptFacts.
Context {Index : Type} `{B : Backends Index} `{T : Templates}.

Ltac run_script :=
  unfold mbind, M_bind, mret, M_ret, st_write, not_in_session_state,
    setattr, getattr, llm, lift;
  cbn [session_state written llm_calls fst snd].

(** Rendering the turns writes to the page and nothing else. *)
Lemma render_loop_spec (chat : list message) (i : nat) (w : @world Index) :
  ∃ html,
    render_loop i chat w
    = (Ok (), {| session_state := session_state w;
                 written := written w ++ html;
                 llm_calls := llm_calls w |}).
Proof.
  revert i w. induction chat as [|m rest IH]; intros i w.
  - exists []. cbn. rewrite app_nil_r. by destruct w.
  - cbn [render_loop]. run_script.
    set (html0 := Str.replace "{{MSG}}" (content m)
                    (if bool_decide (i `mod` 2 = 0)%nat
                     then user_template else bot_template)).
    destruct (IH (S i)
                {| session_state := session_state w;
                   written := written w ++ [html0];
                   llm_calls := llm_calls w |}) as [html Hrest].
    exists (html0 :: html). subst html0.
    case_bool_decide; run_script; rewrite Hrest;
      cbn [session_state written llm_calls];
      by rewrite <- (app_assoc (written w) [_] html).
Qed.

(** A question on a ready engine whose generation call succeeds: one
    request is sent, built from the retrieved chunks, the history and the
    question, and the turn is appended to the engine's history. *)
Lemma handle_user_input_ready (q a : string)
    (c : @ConversationalRetrievalChain Index) (w : @world Index) :
  session_state w !! "convo_chain" = Some (VChain c) →
  generate {| question := q;
              retrieved_context := retrieve (retriever c) q;
              history := memory c |} = Ok a →
  ∃ html,
    handle_user_input q w
    = (Ok (),
       {| session_state :=
            <["chat_history" :=
                VHistory (memory c ++ [HumanMessage q; AIMessage a])]>
              (<["convo_chain" :=
                   VChain {| retriever := retriever c;
                             memory := memory c
                               ++ [HumanMessage q; AIMessage a] |}]>
                 (session_state w));
          written := written w ++ html;
          llm_calls := llm_calls w
            ++ [{| question := q;
                   retrieved_context := retrieve (retriever c) q;
                   history := memory c |}] |}).
Proof.
  intros Hc Hgen. unfold handle_user_input, chain_call. run_script.
  rewrite Hc. cbn [truthy negb]. run_script. rewrite Hgen.
  cbn [chat_history session_state written llm_calls].
  match goal with
  | |- ∃ _, render_loop ?i ?chat ?w0 = _ =>
      destruct (render_loop_spec chat i w0) as [html Hrender]
  end.
  exists html. by rewrite Hrender.
Qed.

(** C2, as the script has it: a question while the stored engine is None
    raises nothing.  The call returns normally, sends no request to the
    generation service, leaves the session state as it was, and writes
    the prompt to upload a document first. *)
Theorem ask_before_upload (q : string) (w : @world Index) :
  session_state w !! "convo_chain" = Some VNone →
  handle_user_input q w
  = (Ok (), {| session_state := session_state w;
               written := written w ++ ["Please upload a PDF first!"];
               llm_calls := llm_calls w |}).
Proof.
  intros Hc. unfold handle_user_input. run_script. by rewrite Hc.
Qed.

(** C5: each successful question appends exactly its turn to the
    engine's history; after two of them on a new engine the history is
    the two turns in call order, and the request sent for the second
    question carries the first question and its answer as history. *)
Theorem two_asks_two_turns :
  (∀ (c : @ConversationalRetrievalChain Index) (q a : string) (w : @world Index),
     session_state w !! "convo_chain" = Some (VChain c) →
     generate {| question := q;
                 retrieved_context := retrieve (retriever c) q;
                 history := memory c |} = Ok a →
     (handle_user_input q w).1 = Ok ()
     ∧ session_state (handle_user_input q w).2 !! "convo_chain"
       = Some (VChain {| retriever := retriever c;
                         memory := memory c
                           ++ [HumanMessage q; AIMessage a] |}))
  ∧ (∀ (vector_store : Index) (q1 a1 q2 a2 : string) (w : @world Index),
       session_state w !! "convo_chain"
       = Some (VChain (get_convo_chain vector_store)) →
       generate {| question := q1;
                   retrieved_context := retrieve vector_store q1;
                   history := [] |} = Ok a1 →
       generate {| question := q2;
                   retrieved_context := retrieve vector_store q2;
                   history := [HumanMessage q1; AIMessage a1] |} = Ok a2 →
       let w1 := (handle_user_input q1 w).2 in
       let w2 := (handle_user_input q2 w1).2 in
       (handle_user_input q1 w).1 = Ok ()
       ∧ (handle_user_input q2 w1).1 = Ok ()
       ∧ session_state w2 !! "convo_chain"
         = Some (VChain {| retriever := vector_store;
                           memory := [HumanMessage q1; AIMessage a1;
                                      HumanMessage q2; AIMessage a2] |})
       ∧ session_state w2 !! "chat_history"
         = Some (VHistory [HumanMessage q1; AIMessage a1;
                           HumanMessage q2; AIMessage a2])
       ∧ llm_calls w2
         = llm_calls w
           ++ [ {| question := q1;
                   retrieved_context := retrieve vector_store q1;
                   history := [] |};
                {| question := q2;
                   retrieved_context := retrieve vector_store q2;
                   history := [HumanMessage q1; AIMessage a1] |} ]).
Proof.
  split.
  - intros c q a w Hc Hgen.
    destruct (handle_user_input_ready q a c w Hc Hgen) as [html ->].
    split; [done|]. cbn [snd session_state].
    rewrite lookup_insert_ne by done. apply lookup_insert_eq.
  - intros vector_store q1 a1 q2 a2 w Hc Hgen1 Hgen2 w1 w2.
    destruct (handle_user_input_ready q1 a1 _ w Hc Hgen1) as [html1 Hrun1].
    cbn [get_convo_chain retriever memory app] in Hrun1.
    assert (session_state w1 !! "convo_chain"
            = Some (VChain {| retriever := vector_store;
                              memory := [HumanMessage q1; AIMessage a1] |}))
      as Hc1.
    { subst w1. rewrite Hrun1. cbn [snd session_state].
      rewrite lookup_insert_ne by done. apply lookup_insert_eq. }
    destruct (handle_user_input_ready q2 a2 _ w1 Hc1 Hgen2) as [html2 Hrun2].
    cbn [retriever memory app] in Hrun2.
    subst w2. rewrite Hrun2. cbn [fst snd session_state llm_calls].
    split; [by rewrite Hrun1|]. split; [done|]. split.
    { rewrite lookup_insert_ne by done. apply lookup_insert_eq. }
    split; [apply lookup_insert_eq|].
    subst w1. rewrite Hrun1. cbn [snd llm_calls].
    by rewrite <- app_assoc.
Qed.

(** C6: a run in which Upload was clicked and that ends normally leaves,
    whatever the session held before, an engine made of the index built
    from the files of this upload and of an empty history. *)
Theorem upload_replaces_engine (w w' : @world Index) (r : run) :
  upload_clicked r = true →
  main r w = (Ok (), w') →
  ∃ raw_text text_chunks vector_store,
    get_pdf_text (pdf_files r) = Ok raw_text
    ∧ get_text_chunks raw_text = Ok text_chunks
    ∧ get_vector_store text_chunks = Ok vector_store
    ∧ session_state w' !! "convo_chain"
      = Some (VChain {| retriever := vector_store; memory := [] |}).
Proof.
  intros Hup. unfold main. rewrite Hup. run_script.
  repeat case_match; simplify_eq/=; intros [= <-];
    eexists _, _, _; (repeat split; [done..|]);
    cbn [session_state]; apply lookup_insert_eq.
Qed.

(** Once both keys are stored, a rerun without a question changes the
    session state only through a successful upload. *)
Lemma main_keeps_session_state (w : @world Index) (r : run) (v h : @value Index) :
  session_state w !! "convo_chain" = Some v →
  session_state w !! "chat_history" = Some h →
  user_input r = "" →
  upload_clicked r = false ∨ (main r w).1 ≠ Ok () →
  session_state (main r w).2 = session_state w.
Proof.
  intros Hc Hh Hq. unfold main. rewrite Hq. run_script.
  rewrite (bool_decide_eq_false_2 ("" ≠ "")) by (intros H; by apply H).
  cbn [session_state]. rewrite Hc.
  rewrite (bool_decide_eq_false_2 (Some v = None)) by done.
  cbn [session_state]. rewrite Hh.
  rewrite (bool_decide_eq_false_2 (Some h = None)) by done.
  intros [-> | Hfail]; [done|]. revert Hfail.
  destruct (upload_clicked r); [|done].
  repeat case_match; simplify_eq/=; done.
Qed.

(** The defect of app.py 92-93: while "chat_history" is not stored, every
    rerun without a question and without an upload stores None as the
    engine. *)
Lemma main_drops_engine (w : @world Index) (r : run) :
  session_state w !! "chat_history" = None →
  user_input r = "" → upload_clicked r = false →
  session_state (main r w).2 !! "convo_chain" = Some VNone.
Proof.
  intros Hh Hq Hup. unfold main. rewrite Hq, Hup. run_script.
  rewrite (bool_decide_eq_false_2 ("" ≠ "")) by (intros H; by apply H).
  cbn [session_state]. case_bool_decide; cbn [session_state].
  - rewrite bool_decide_eq_true_2 by (by rewrite lookup_insert_ne).
    cbn [snd session_state]. apply lookup_insert_eq.
  - rewrite bool_decide_eq_true_2 by done.
    cbn [snd session_state]. apply lookup_insert_eq.
Qed.

End ScriptFacts.

(** ** The script on concrete sessions *)

Lemma ask_before_upload_witness :
  handle_user_input (B := demo_backends) (T := demo_templates)
    "What is a set?" empty_world
  = (Ok (), {| session_state := session_state empty_world;
               written := written empty_world
                            ++ ["Please upload a PDF first!"];
               llm_calls := llm_calls empty_world |}).
Proof.
  apply (ask_before_upload (B := demo_backends) (T := demo_templates)
           "What is a set?" empty_world).
  vm_compute. reflexivity.
Defined.

(** C2 as stated fails: with None stored as the engine, a question does
    not raise; the call returns normally. *)
Lemma ask_before_upload_no_error :
  session_state empty_world !! "convo_chain" = Some VNone
  ∧ (handle_user_input (B := demo_backends) (T := demo_templates)
       "What is a set?" empty_world).1 = Ok ()
  ∧ ¬ ∃ e, (handle_user_input (B := demo_backends) (T := demo_templates)
              "What is a set?" empty_world).1 = Raise e.
Proof.
  assert ((handle_user_input (B := demo_backends) (T := demo_templates)
             "What is a set?" empty_world).1 = Ok ()) as Hrun
    by (vm_compute; reflexivity).
  split; [vm_compute; reflexivity|]. split; [done|].
  intros [e He]. rewrite Hrun in He. discriminate He.
Qed.

Lemma two_asks_two_turns_witness :
  session_state
    (handle_user_input (B := demo_backends) (T := demo_templates)
       "What is a set?" ready_world).2 !! "convo_chain"
  = Some (VChain
            {| retriever := ["Chapter 1" +:+ newline +:+ "Sets and maps."];
               memory := [HumanMessage "What is a set?";
                          AIMessage "re: What is a set?"] |})
  ∧ llm_calls
      (handle_user_input (B := demo_backends) (T := demo_templates)
         "And a map?"
         (handle_user_input (B := demo_backends) (T := demo_templates)
            "What is a set?" ready_world).2).2
    = llm_calls ready_world
      ++ [ {| question := "What is a set?";
              retrieved_context :=
                ["Chapter 1" +:+ newline +:+ "Sets and maps."];
              history := [] |};
           {| question := "And a map?";
              retrieved_context :=
                ["Chapter 1" +:+ newline +:+ "Sets and maps."];
              history := [HumanMessage "What is a set?";
                          AIMessage "re: What is a set?"] |} ].
Proof.
  split.
  - apply (proj1 (two_asks_two_turns (B := demo_backends)
                    (T := demo_templates))
             {| retriever := ["Chapter 1" +:+ newline +:+ "Sets and maps."];
                memory := [] |}
             "What is a set?" "re: What is a set?" ready_world);
      vm_compute; reflexivity.
  - apply (proj2 (two_asks_two_turns (B := demo_backends)
                    (T := demo_templates))
             ["Chapter 1" +:+ newline +:+ "Sets and maps."]
             "What is a set?" "re: What is a set?"
             "And a map?" "re: And a map?" ready_world);
      vm_compute; reflexivity.
Defined.

Lemma upload_replaces_engine_witness :
  ∃ raw_text text_chunks vector_store,
    get_pdf_text [notes] = Ok raw_text
    ∧ get_text_chunks raw_text = Ok text_chunks
    ∧ get_vector_store (B := demo_backends) text_chunks = Ok vector_store
    ∧ session_state
        (main (B := demo_backends) (T := demo_templates)
           (click_upload [notes]) asked_world).2 !! "convo_chain"
      = Some (VChain {| retriever := vector_store; memory := [] |}).
Proof.
  apply (upload_replaces_engine (B := demo_backends) (T := demo_templates)
           asked_world _ (click_upload [notes])).
  - reflexivity.
  - vm_compute. reflexivity.
Defined.

(** C1 fails on the script.  After a successful upload the engine is
    stored; the next rerun, caused by adding a file to the uploader with no
    question typed and without clicking Upload, stores None in its place
    (app.py 92-93). *)
Theorem engine_lost_on_rerun :
  session_state ready_world !! "convo_chain"
  = Some (VChain {| retriever := ["Chapter 1" +:+ newline +:+ "Sets and maps."];
                    memory := [] |})
  ∧ session_state
      (rerun (B := demo_backends) (T := demo_templates) ready_world
         (change_files [textbook; notes])) !! "convo_chain"
    = Some VNone.
Proof. split; vm_compute; reflexivity. Qed.

(** C7 fails on the script.  With an engine stored by a first upload, a
    second click on Upload during which the embedding backend cannot be
    reached ends in the backend's error, and the stored engine is None
    afterwards, not the engine of the first upload (app.py 92-93). *)
Theorem failed_upload_loses_engine :
  session_state ready_world !! "convo_chain"
  = Some (VChain {| retriever := ["Chapter 1" +:+ newline +:+ "Sets and maps."];
                    memory := [] |})
  ∧ (main (B := offline_backends) (T := demo_templates)
       (click_upload [textbook]) ready_world).1 = Raise EmbeddingError
  ∧ session_state
      (main (B := offline_backends) (T := demo_templates)
         (click_upload [textbook]) ready_world).2 !! "convo_chain"
    = Some VNone.
Proof. repeat split; vm_compute; reflexivity. Qed.

(** * Further properties of the script *)

(** ** Text extraction *)

Lemma files_loop_shift (pdf_files : list uploaded_file) (text : string) :
  files_loop pdf_files text
  = (extracted ← files_loop pdf_files ""; Ok (text +:+ extracted)).
Proof.
  revert text. induction pdf_files as [|pdf rest IH]; intros text.
  - cbn. by rewrite StrFacts.app_nil_r.
  - cbn [files_loop]. destruct (PdfReader pdf) as [all_pages|e]; [|done].
    cbn [mbind result_bind].
    rewrite (IH (pages_loop all_pages text)), (IH (pages_loop all_pages "")).
    destruct (files_loop rest "") as [extracted|e]; [|done].
    cbn [mbind result_bind]. rewrite !pages_loop_join.
    change ("" +:+ ?x) with x. by rewrite StrFacts.app_assoc.
Qed.

Lemma files_loop_all_readable (pdf_files : list uploaded_file) (text : string) :
  Unreadable ∉ pdf_files → ∃ extracted, files_loop pdf_files text = Ok extracted.
Proof.
  revert text. induction pdf_files as [|pdf rest IH]; intros text Hnot.
  - by exists text.
  - apply not_elem_of_cons in Hnot as [Hpdf Hrest].
    destruct pdf as [|all_pages]; [done|].
    cbn [files_loop PdfReader mbind result_bind]. by apply IH.
Qed.

Lemma files_loop_error (pdf_files : list uploaded_file) (text : string)
    (e : exn) :
  files_loop pdf_files text = Raise e →
  e = PdfReadError ∧ Unreadable ∈ pdf_files.
Proof.
  revert text. induction pdf_files as [|pdf rest IH]; intros text Hrun.
  - discriminate Hrun.
  - destruct pdf as [|all_pages].
    + injection Hrun as <-. split; [done|]. by left.
    + cbn [files_loop PdfReader mbind result_bind] in Hrun.
      destruct (IH _ Hrun) as [-> Hin]. split; [done|]. by right.
Qed.

(** X1: the extraction of a batch succeeds exactly when none of its files
    is unreadable, and the only error it can end in is the reader's. *)
Theorem get_pdf_text_ok_iff_readable (pdf_files : list uploaded_file) :
  ((∃ text, get_pdf_text pdf_files = Ok text) ↔ Unreadable ∉ pdf_files)
  ∧ ∀ e, get_pdf_text pdf_files = Raise e →
         e = PdfReadError ∧ Unreadable ∈ pdf_files.
Proof.
  split; [split|].
  - intros [text Hok] Hin.
    unfold get_pdf_text in Hok.
    by rewrite (files_loop_unreadable _ _ Hin) in Hok.
  - apply files_loop_all_readable.
  - apply files_loop_error.
Qed.

Lemma get_pdf_text_ok_iff_readable_witness :
  PdfReadError = PdfReadError ∧ Unreadable ∈ [textbook; Unreadable; scan].
Proof.
  apply (proj2 (get_pdf_text_ok_iff_readable [textbook; Unreadable; scan])).
  reflexivity.
Defined.

(** X2: extraction adds nothing between documents: the text of a batch made
    of two batches is the text of the first followed by the text of the
    second. *)
Theorem get_pdf_text_app (files1 files2 : list uploaded_file)
    (text1 text2 : string) :
  get_pdf_text files1 = Ok text1 →
  get_pdf_text files2 = Ok text2 →
  get_pdf_text (files1 ++ files2) = Ok (text1 +:+ text2).
Proof.
  unfold get_pdf_text. intros H1 H2.
  rewrite files_loop_app, H1. cbn [mbind result_bind].
  by rewrite files_loop_shift, H2.
Qed.

Lemma get_pdf_text_app_witness :
  get_pdf_text ([textbook] ++ [scan; notes])
  = Ok (("Chapter 1" +:+ newline +:+ "Sets and maps.")
        +:+ "Graphs and trees.").
Proof.
  apply (get_pdf_text_app [textbook] [scan; notes]); reflexivity.
Defined.

(** ** Session state across reruns *)

Section SessionFacts.
Context {Index : Type} `{B : Backends Index} `{T : Templates}.

Ltac run_script :=
  unfold mbind, M_bind, mret, M_ret, st_write, not_in_session_state,
    setattr, getattr, llm, lift;
  cbn [session_state written llm_calls fst snd].

Lemma render_loop_written (chat : list message) (i : nat) (w : @world Index) :
  render_loop i chat w
  = (Ok (), {| session_state := session_state w;
               written := written w ++ imap (λ j, rendered (i + j)) chat;
               llm_calls := llm_calls w |}).
Proof.
  revert i w. induction chat as [|m rest IH]; intros i w.
  - cbn. rewrite app_nil_r. by destruct w.
  - cbn [render_loop]. unfold mbind, M_bind.
    assert ((if bool_decide (i `mod` 2 = 0)%nat
             then st_write
                    (Str.replace "{{MSG}}" (content m) user_template)
             else st_write
                    (Str.replace "{{MSG}}" (content m) bot_template)) w
            = (Ok (), {| session_state := session_state w;
                         written := written w ++ [rendered i m];
                         llm_calls := llm_calls w |})) as ->.
    { unfold rendered. by case_bool_decide. }
    rewrite IH. cbn [session_state written llm_calls imap].
    rewrite <- (app_assoc (written w) [_]). cbn [app].
    rewrite Nat.add_0_r. do 4 f_equal.
    apply imap_ext. intros j x _. unfold compose. f_equal. lia.
Qed.

(** [handle_user_input] keeps the engine slot well-formed. *)
Lemma handle_user_input_slot (q : string) (w : @world Index) :
  engine_slot_ok w → engine_slot_ok (handle_user_input q w).2.
Proof.
  unfold engine_slot_ok, handle_user_input, chain_call. run_script.
  destruct (session_state w !! "convo_chain") as [[|c|h]|] eqn:Hc; try done.
  - cbn [truthy negb snd session_state]. by rewrite Hc.
  - cbn [truthy negb]. run_script.
    destruct (generate _) as [a|e]; cbn [snd session_state].
    + rewrite render_loop_written. cbn [snd session_state].
      rewrite lookup_insert_ne by done. by rewrite lookup_insert_eq.
    + by rewrite Hc.
Qed.

(** After [main] the engine slot is well-formed, if it was so before or
    was not stored at all and no question was typed. *)
Lemma main_slot (r : run) (w : @world Index) :
  engine_slot_ok w
  ∨ (session_state w !! "convo_chain" = None ∧ user_input r = "") →
  engine_slot_ok (main r w).2.
Proof.
  intros Hw.
  assert (∃ res w0,
            (if bool_decide (user_input r ≠ "")
             then handle_user_input (user_input r)
             else mret ()) w = (res, w0)
            ∧ (res = Ok () →
               engine_slot_ok w0
               ∨ session_state w0 !! "convo_chain" = None)
            ∧ (res ≠ Ok () → engine_slot_ok w0)) as (res & w0 & Hfirst & Hok & Hfail).
  { case_bool_decide as Hq.
    - destruct Hw as [Hw | [_ Hempty]]; [|done].
      pose proof (handle_user_input_slot (user_input r) w Hw) as Hslot.
      destruct (handle_user_input (user_input r) w) as [res w0].
      exists res, w0. split; [done|]. split; intros _; [by left|done].
    - exists (Ok ()), w. split; [done|]. split; [|done]. intros _.
      destruct Hw as [Hw | [Hnone _]]; [by left|by right]. }
  unfold main. unfold mbind at 1. unfold M_bind at 1. rewrite Hfirst.
  destruct res as [[]|e]; [|by apply Hfail]. run_script.
  specialize (Hok eq_refl). unfold engine_slot_ok in *.
  cbn [session_state].
  repeat
    (match goal with
     | |- context [bool_decide ?P] => destruct (bool_decide_reflect P)
     | |- context [upload_clicked ?x] => destruct (upload_clicked x)
     | |- context [get_pdf_text ?x] => destruct (get_pdf_text x)
     | |- context [get_text_chunks ?x] => destruct (get_text_chunks x)
     | |- context [get_vector_store ?x] => destruct (get_vector_store x)
     end; cbn [session_state snd]);
    rewrite ?lookup_insert_eq; try done;
    destruct Hok as [Hok|Hok]; done.
Qed.
End SessionFacts.

Section SessionProperties.
Context {Index : Type} `{B : Backends Index} `{T : Templates}.

Ltac run_script :=
  unfold mbind, M_bind, mret, M_ret, st_write, not_in_session_state,
    setattr, getattr, llm, lift;
  cbn [session_state written llm_calls fst snd].

Lemma session_slot (runs : list run) (w : @world Index) :
  engine_slot_ok w → engine_slot_ok (session runs w).
Proof.
  revert w. induction runs as [|r runs IH]; intros w Hw; [done|].
  cbn [session foldl]. apply IH. unfold rerun. apply main_slot. by left.
Qed.

Lemma handle_user_input_error (q : string) (e : exn) (w : @world Index) :
  engine_slot_ok w →
  (handle_user_input q w).1 = Raise e →
  ∃ c, session_state w !! "convo_chain" = Some (VChain c)
       ∧ generate {| question := q;
                     retrieved_context := retrieve (retriever c) q;
                     history := memory c |} = Raise e.
Proof.
  unfold engine_slot_ok, handle_user_input, chain_call. run_script.
  destruct (session_state w !! "convo_chain") as [[|c|h]|] eqn:Hc; try done.
  cbn [truthy negb]. run_script. intros _.
  destruct (generate _) as [a|e'] eqn:Hgen.
  - rewrite render_loop_written. done.
  - intros [= ->]. by exists c.
Qed.

(** X3: in a session that starts with a page load (no question typed on
    the first run), the engine slot only ever holds None or a chain, so a
    question never fails on a missing key or on a value that cannot be
    called: if [handle_user_input] raises, a chain is stored and the error
    is the one its generation request ended in. *)
Theorem question_fails_only_in_generation (r : run) (runs : list run)
    (q : string) (e : exn) :
  user_input r = "" →
  (handle_user_input q (session (r :: runs) fresh)).1 = Raise e →
  ∃ c, session_state (session (r :: runs) fresh) !! "convo_chain"
       = Some (VChain c)
       ∧ generate {| question := q;
                     retrieved_context := retrieve (retriever c) q;
                     history := memory c |} = Raise e.
Proof.
  intros Hr. apply handle_user_input_error.
  cbn [session foldl]. apply session_slot. unfold rerun. apply main_slot.
  right. split; [apply lookup_empty|done].
Qed.

(** X4: a run with an empty text box sends nothing to the generation
    service and never stores "chat_history", which only an answered
    question does; without a click on Upload such a run cannot raise. *)
Theorem main_without_question (r : run) (w : @world Index) :
  user_input r = "" →
  session_state (main r w).2 !! "chat_history"
  = session_state w !! "chat_history"
  ∧ llm_calls (main r w).2 = llm_calls w
  ∧ (upload_clicked r = false → (main r w).1 = Ok ()).
Proof.
  intros Hq. unfold main. rewrite Hq. run_script.
  rewrite (bool_decide_eq_false_2 ("" ≠ "")) by (intros H; by apply H).
  cbn [session_state].
  repeat
    (match goal with
     | |- context [bool_decide ?P] => destruct (bool_decide_reflect P)
     | |- context [upload_clicked ?x] => destruct (upload_clicked x)
     | |- context [get_pdf_text ?x] => destruct (get_pdf_text x)
     | |- context [get_text_chunks ?x] => destruct (get_text_chunks x)
     | |- context [get_vector_store ?x] => destruct (get_vector_store x)
     end; cbn [session_state llm_calls fst snd]);
    rewrite ?lookup_insert_ne by done; done.
Qed.

(** X5: once the engine and "chat_history" are both stored, a run with an
    empty text box that is not an upload, or that does not end normally,
    leaves the session state exactly as it was: idle reruns and failed
    uploads change nothing.  A run that is an upload and ends normally
    changes one key only: it stores under "convo_chain" the new chain over
    the index built from the chunks of the text of this upload's files. *)
Theorem idle_or_failed_run_keeps_state (r : run) (w : @world Index)
    (v h : @value Index) :
  session_state w !! "convo_chain" = Some v →
  session_state w !! "chat_history" = Some h →
  user_input r = "" →
  (upload_clicked r = false ∨ (main r w).1 ≠ Ok () →
   session_state (main r w).2 = session_state w)
  ∧ (upload_clicked r = true → (main r w).1 = Ok () →
     ∃ raw_text text_chunks vector_store,
       get_pdf_text (pdf_files r) = Ok raw_text
       ∧ get_text_chunks raw_text = Ok text_chunks
       ∧ get_vector_store text_chunks = Ok vector_store
       ∧ session_state (main r w).2
         = <["convo_chain" := VChain (get_convo_chain vector_store)]>
             (session_state w)).
Proof.
  intros Hc Hh Hq. split; [by apply (main_keeps_session_state w r v h)|].
  unfold main. rewrite Hq. run_script.
  rewrite (bool_decide_eq_false_2 ("" ≠ "")) by (intros H; by apply H).
  cbn [session_state]. rewrite Hc.
  rewrite (bool_decide_eq_false_2 (Some v = None)) by done.
  cbn [session_state]. rewrite Hh.
  rewrite (bool_decide_eq_false_2 (Some h = None)) by done.
  intros ->. run_script.
  destruct (get_pdf_text (pdf_files r)) as [raw_text|] eqn:Hraw; [|done].
  destruct (get_text_chunks raw_text) as [text_chunks|] eqn:Hchunks; [|done].
  destruct (get_vector_store text_chunks) as [vector_store|] eqn:Hstore;
    [|done].
  intros _. by exists raw_text, text_chunks, vector_store.
Qed.

(** X6: when a run carries both a question and a click on Upload, the
    question goes first, to the engine stored before the upload; then the
    engine is replaced.  The run ends with a new engine whose history is
    empty while "chat_history" still holds the turns of the old one. *)
Theorem question_then_upload (r : run) (w : @world Index)
    (c : @ConversationalRetrievalChain Index) (a raw_text : string)
    (text_chunks : list string) (vector_store : Index) :
  user_input r ≠ "" →
  upload_clicked r = true →
  session_state w !! "convo_chain" = Some (VChain c) →
  generate {| question := user_input r;
              retrieved_context := retrieve (retriever c) (user_input r);
              history := memory c |} = Ok a →
  get_pdf_text (pdf_files r) = Ok raw_text →
  get_text_chunks raw_text = Ok text_chunks →
  get_vector_store text_chunks = Ok vector_store →
  (main r w).1 = Ok ()
  ∧ session_state (main r w).2 !! "convo_chain"
    = Some (VChain {| retriever := vector_store; memory := [] |})
  ∧ session_state (main r w).2 !! "chat_history"
    = Some (VHistory
              (memory c ++ [HumanMessage (user_input r); AIMessage a]))
  ∧ llm_calls (main r w).2
    = llm_calls w
      ++ [{| question := user_input r;
             retrieved_context := retrieve (retriever c) (user_input r);
             history := memory c |}].
Proof.
  intros Hq Hup Hc Hgen Hraw Hchunks Hstore.
  destruct (handle_user_input_ready _ a c w Hc Hgen) as [html Hask].
  assert (main r w
          = (Ok (),
             {| session_state :=
                  <["convo_chain" := VChain (get_convo_chain vector_store)]>
                    (<["chat_history" :=
                         VHistory (memory c ++ [HumanMessage (user_input r);
                                                AIMessage a])]>
                       (<["convo_chain" :=
                            VChain {| retriever := retriever c;
                                      memory := memory c
                                        ++ [HumanMessage (user_input r);
                                            AIMessage a] |}]>
                          (session_state w)));
                written := (written w ++ html) ++ [css];
                llm_calls := llm_calls w
                  ++ [{| question := user_input r;
                         retrieved_context :=
                           retrieve (retriever c) (user_input r);
                         history := memory c |}] |})) as ->.
  { unfold main. rewrite Hup. unfold mbind at 1. unfold M_bind at 1.
    rewrite (bool_decide_eq_true_2 _ Hq), Hask. run_script.
    rewrite (bool_decide_eq_false_2
               (<["chat_history" := _]> (<["convo_chain" := _]> _)
                  !! "convo_chain" = None))
      by (rewrite lookup_insert_ne, lookup_insert_eq; done).
    cbn [session_state].
    rewrite (bool_decide_eq_false_2
               (<["chat_history" := _]> _ !! "chat_history" = None))
      by (by rewrite lookup_insert_eq).
    by rewrite Hraw, Hchunks, Hstore. }
  cbn [fst snd session_state llm_calls].
  split; [done|]. split; [apply lookup_insert_eq|]. split; [|done].
  rewrite lookup_insert_ne by done. apply lookup_insert_eq.
Qed.

(** X7: in a run with an empty text box, a click on Upload and no
    unreadable file, extraction and chunking succeed, and the run ends as
    the index build on these chunks ends: normally, with a chain of empty
    history over the new index stored, when the index is built, and in
    the backend's error when it is not. *)
Theorem upload_goes_through (r : run) (w : @world Index) :
  user_input r = "" →
  upload_clicked r = true →
  Unreadable ∉ pdf_files r →
  ∃ raw_text text_chunks,
    get_pdf_text (pdf_files r) = Ok raw_text
    ∧ get_text_chunks raw_text = Ok text_chunks
    ∧ (∀ vector_store,
         get_vector_store text_chunks = Ok vector_store →
         (main r w).1 = Ok ()
         ∧ session_state (main r w).2 !! "convo_chain"
           = Some (VChain {| retriever := vector_store; memory := [] |}))
    ∧ (∀ e, get_vector_store text_chunks = Raise e →
            (main r w).1 = Raise e).
Proof.
  intros Hq Hup Hfiles.
  destruct (files_loop_all_readable (pdf_files r) "" Hfiles) as [raw Hraw].
  destruct (split_text_total text_splitter raw) as [chunks Hchunks]; [done|].
  fold (get_pdf_text (pdf_files r)) in Hraw.
  fold (get_text_chunks raw) in Hchunks.
  exists raw, chunks. split; [done|]. split; [done|]. split.
  - intros vector_store Hstore. unfold main. rewrite Hq, Hup. run_script.
    rewrite (bool_decide_eq_false_2 ("" ≠ "")) by (intros H; by apply H).
    cbn [session_state]. rewrite Hraw, Hchunks, Hstore.
    repeat
      (match goal with
       | |- context [bool_decide ?P] => destruct (bool_decide_reflect P)
       end; cbn [session_state fst snd]);
      (split; [done|apply lookup_insert_eq]).
  - intros e Hstore. unfold main. rewrite Hq, Hup. run_script.
    rewrite (bool_decide_eq_false_2 ("" ≠ "")) by (intros H; by apply H).
    cbn [session_state]. rewrite Hraw, Hchunks, Hstore.
    repeat
      (match goal with
       | |- context [bool_decide ?P] => destruct (bool_decide_reflect P)
       end; cbn [session_state fst snd]);
      done.
Qed.

(** X8: after an answered question the page shows the whole history, one
    block per message in order: the message at an even position in the
    user template and the one at an odd position in the bot template, the
    marker replaced by the message's text. *)
Theorem answered_question_renders_history (q a : string)
    (c : @ConversationalRetrievalChain Index) (w : @world Index) :
  session_state w !! "convo_chain" = Some (VChain c) →
  generate {| question := q;
              retrieved_context := retrieve (retriever c) q;
              history := memory c |} = Ok a →
  written (handle_user_input q w).2
  = written w
    ++ imap rendered (memory c ++ [HumanMessage q; AIMessage a])
  ∧ length (imap rendered (memory c ++ [HumanMessage q; AIMessage a]))
    = (length (memory c) + 2)%nat.
Proof.
  intros Hc Hgen. split.
  - unfold handle_user_input, chain_call. run_script.
    rewrite Hc. cbn [truthy negb]. run_script. rewrite Hgen.
    cbn [chat_history]. by rewrite render_loop_written.
  - rewrite length_imap, length_app. done.
Qed.

End SessionProperties.

Lemma question_fails_only_in_generation_witness :
  ∃ c, session_state
         (session (B := mute_backends) (T := demo_templates)
            (click_upload [textbook] :: []) fresh) !! "convo_chain"
       = Some (VChain c)
       ∧ generate (Backends := mute_backends)
           {| question := "What is a set?";
              retrieved_context :=
                retrieve (Backends := mute_backends) (retriever c)
                  "What is a set?";
              history := memory c |} = Raise GenerationError.
Proof.
  apply (question_fails_only_in_generation (B := mute_backends)
           (T := demo_templates) (click_upload [textbook]) []
           "What is a set?" GenerationError).
  - reflexivity.
  - vm_compute. reflexivity.
Defined.

Lemma main_without_question_witness :
  session_state
    (main (B := demo_backends) (T := demo_templates)
       (change_files [textbook; notes]) asked_world).2 !! "chat_history"
  = session_state asked_world !! "chat_history"
  ∧ llm_calls
      (main (B := demo_backends) (T := demo_templates)
         (change_files [textbook; notes]) asked_world).2
    = llm_calls asked_world
  ∧ (upload_clicked (change_files [textbook; notes]) = false →
     (main (B := demo_backends) (T := demo_templates)
        (change_files [textbook; notes]) asked_world).1 = Ok ()).
Proof.
  apply (main_without_question (B := demo_backends) (T := demo_templates)
           (change_files [textbook; notes]) asked_world).
  reflexivity.
Defined.

Lemma idle_or_failed_run_keeps_state_witness :
  session_state
    (main (B := offline_backends) (T := demo_templates)
       (click_upload [textbook]) asked_world).2
  = session_state asked_world.
Proof.
  apply (proj1 (idle_or_failed_run_keeps_state (B := offline_backends)
                  (T := demo_templates) (click_upload [textbook]) asked_world
                  (VChain {| retriever :=
                               ["Chapter 1" +:+ newline +:+ "Sets and maps."];
                             memory := [HumanMessage "What is a set?";
                                        AIMessage "re: What is a set?"] |})
                  (VHistory [HumanMessage "What is a set?";
                             AIMessage "re: What is a set?"])
                  ltac:(vm_compute; reflexivity)
                  ltac:(vm_compute; reflexivity)
                  ltac:(reflexivity))).
  right. vm_compute. discriminate.
Defined.

Lemma question_then_upload_witness :
  session_state
    (main (B := demo_backends) (T := demo_templates)
       {| user_input := "What is a set?";
          pdf_files := [notes];
          upload_clicked := true |} ready_world).2 !! "convo_chain"
  = Some (VChain {| retriever := ["Graphs and trees."]; memory := [] |})
  ∧ session_state
      (main (B := demo_backends) (T := demo_templates)
         {| user_input := "What is a set?";
            pdf_files := [notes];
            upload_clicked := true |} ready_world).2 !! "chat_history"
    = Some (VHistory [HumanMessage "What is a set?";
                      AIMessage "re: What is a set?"]).
Proof.
  pose proof (question_then_upload (B := demo_backends)
                (T := demo_templates)
                {| user_input := "What is a set?";
                   pdf_files := [notes];
                   upload_clicked := true |}
                ready_world
                {| retriever :=
                     ["Chapter 1" +:+ newline +:+ "Sets and maps."];
                   memory := [] |}
                "re: What is a set?" "Graphs and trees."
                ["Graphs and trees."] ["Graphs and trees."]) as H.
  destruct H as (_ & Hengine & Hhistory & _);
    [discriminate | reflexivity | vm_compute; reflexivity | reflexivity
    | reflexivity | vm_compute; reflexivity | reflexivity |].
  split; [exact Hengine | exact Hhistory].
Defined.

Lemma upload_goes_through_witness :
  (main (B := strict_backends) (T := demo_templates)
     (click_upload [textbook; scan]) fresh).1 = Ok ()
  ∧ session_state
      (main (B := strict_backends) (T := demo_templates)
         (click_upload [textbook; scan]) fresh).2 !! "convo_chain"
    = Some (VChain
              {| retriever := ["Chapter 1" +:+ newline +:+ "Sets and maps."];
                 memory := [] |}).
Proof.
  assert (Unreadable ∉ [textbook; scan]) as Hfiles.
  { intros Hin.
    repeat (apply elem_of_cons in Hin as [Hin|Hin]; [discriminate Hin|]).
    by apply elem_of_nil in Hin. }
  destruct (upload_goes_through (B := strict_backends) (T := demo_templates)
              (click_upload [textbook; scan]) fresh eq_refl eq_refl Hfiles)
    as (raw_text & text_chunks & Hraw & Hchunks & Hbuilt & _).
  apply Hbuilt. vm_compute in Hraw. injection Hraw as <-.
  vm_compute in Hchunks. injection Hchunks as <-. reflexivity.
Defined.

Lemma answered_question_renders_history_witness :
  written
    (handle_user_input (B := demo_backends) (T := demo_templates)
       "What is a set?" ready_world).2
  = written ready_world
    ++ imap (rendered (T := demo_templates))
         ([] ++ [HumanMessage "What is a set?";
                 AIMessage "re: What is a set?"])
  ∧ length (imap (rendered (T := demo_templates))
              ([] ++ [HumanMessage "What is a set?";
                      AIMessage "re: What is a set?"]))
    = (length ([] : list message) + 2)%nat.
Proof.
  apply (answered_question_renders_history (B := demo_backends)
           (T := demo_templates) "What is a set?" "re: What is a set?"
           {| retriever := ["Chapter 1" +:+ newline +:+ "Sets and maps."];
              memory := [] |} ready_world);
    vm_compute; reflexivity.
Defined.

(** ** What the chunks look like *)

Lemma lstrip_idem (s : string) : Str.lstrip (Str.lstrip s) = Str.lstrip s.
Proof.
  induction s as [|c s IH]; [done|]. cbn [Str.lstrip].
  destruct (Str.is_whitespace c) eqn:Hc; [done|].
  cbn [Str.lstrip]. by rewrite Hc.
Qed.

Lemma rstrip_idem (s : string) : Str.rstrip (Str.rstrip s) = Str.rstrip s.
Proof.
  induction s as [|c s IH]; [done|]. cbn [Str.rstrip].
  destruct (Str.rstrip s) as [|c' r] eqn:Hr.
  - destruct (Str.is_whitespace c) eqn:Hc; [done|].
    cbn [Str.rstrip]. by rewrite Hc.
  - change (Str.rstrip (String c (String c' r)))
      with (match Str.rstrip (String c' r) with
            | EmptyString =>
                if Str.is_whitespace c then EmptyString
                else String c EmptyString
            | r' => String c r'
            end).
    by rewrite IH.
Qed.

Lemma rstrip_lstrip (s : string) :
  Str.rstrip s = s → Str.rstrip (Str.lstrip s) = Str.lstrip s.
Proof.
  induction s as [|c s IH]; [done|]. intros Hfix. cbn [Str.lstrip].
  destruct (Str.is_whitespace c) eqn:Hc; [|done].
  apply IH. cbn [Str.rstrip] in Hfix. rewrite Hc in Hfix.
  destruct (Str.rstrip s); [discriminate Hfix|]. by injection Hfix.
Qed.

Lemma strip_idem (s : string) : Str.strip (Str.strip s) = Str.strip s.
Proof.
  unfold Str.strip.
  rewrite (rstrip_lstrip (Str.rstrip s)) by apply rstrip_idem.
  apply lstrip_idem.
Qed.

Lemma _join_docs_stripped (cur : list string) (separator doc : string) :
  _join_docs cur separator = Some doc → doc ≠ "" ∧ Str.strip doc = doc.
Proof.
  unfold _join_docs. case_bool_decide as Hne; [done|]. intros [= <-].
  split; [done|]. apply strip_idem.
Qed.

(** Whatever holds of every joined chunk holds of the chunks emitted by
    the packing loop. *)
Lemma merge_loop_docs (P : string → Prop) (self : CharacterTextSplitter)
    (separator : string) (splits : list string) (st : merge_state) :
  0 ≤ _chunk_overlap self →
  total st = Str.len (Str.join separator (current_doc st)) →
  (∀ cur doc, _join_docs cur separator = Some doc → P doc) →
  Forall P (docs st) →
  ∃ st', merge_loop self separator splits st = Ok st' ∧ Forall P (docs st').
Proof.
  intros HO Htot HP. revert st Htot.
  induction splits as [|d rest IH]; intros st Htot Hdocs.
  - by exists st.
  - cbn [merge_loop].
    destruct (merge_step_spec self separator st d HO Htot)
      as (carried & docs1 & -> & _ & _ & Hdocs1 & _).
    cbn [mbind result_bind]. apply IH; [done|]. cbn [docs].
    destruct Hdocs1 as [-> | (doc & -> & Hdoc)]; [done|].
    apply Forall_app. split; [done|]. constructor; [by eapply HP|done].
Qed.

(** X9: chunking never raises, whatever the text, and what it returns is
    clean: no chunk is empty and no chunk begins or ends with whitespace
    (stripping a chunk again changes nothing). *)
Theorem chunks_are_stripped (raw_text : string) :
  ∃ chunks,
    get_text_chunks raw_text = Ok chunks
    ∧ Forall (λ c, c ≠ "" ∧ Str.strip c = c) chunks.
Proof.
  unfold get_text_chunks, split_text, _merge_splits.
  destruct (merge_loop_docs (λ c, c ≠ "" ∧ Str.strip c = c) text_splitter
              (_separator text_splitter)
              (_split_text raw_text (_separator text_splitter))
              {| docs := []; current_doc := []; total := 0 |})
    as (st & -> & Hdocs); [done|done| |done|].
  { intros cur doc. apply _join_docs_stripped. }
  cbn [mbind result_bind]. eexists. split; [done|].
  destruct (_join_docs (current_doc st) _) as [doc|] eqn:Hdoc; [|done].
  apply Forall_app. split; [done|]. constructor; [|done].
  by eapply _join_docs_stripped.
Qed.

(** ** A question on the run after an upload *)

(** X10: a run that carries a question and no click on Upload, with a
    chain stored, answers the question and keeps the engine, whether or not
    "chat_history" was stored before: the question is handled before the
    guards of app.py 90-93 are reached, and it stores "chat_history".  The
    engine ends with the new turn appended, one request is sent, and the
    run ends normally. *)
Theorem question_keeps_engine {Index : Type} `{B : Backends Index}
    `{T : Templates} (r : run) (w : @world Index)
    (c : @ConversationalRetrievalChain Index) (a : string) :
  user_input r ≠ "" →
  upload_clicked r = false →
  session_state w !! "convo_chain" = Some (VChain c) →
  generate {| question := user_input r;
              retrieved_context := retrieve (retriever c) (user_input r);
              history := memory c |} = Ok a →
  (main r w).1 = Ok ()
  ∧ session_state (main r w).2 !! "convo_chain"
    = Some (VChain {| retriever := retriever c;
                      memory := memory c ++ [HumanMessage (user_input r);
                                             AIMessage a] |})
  ∧ session_state (main r w).2 !! "chat_history"
    = Some (VHistory
              (memory c ++ [HumanMessage (user_input r); AIMessage a]))
  ∧ llm_calls (main r w).2
    = llm_calls w
      ++ [{| question := user_input r;
             retrieved_context := retrieve (retriever c) (user_input r);
             history := memory c |}].
Proof.
  intros Hq Hup Hc Hgen.
  destruct (handle_user_input_ready _ a c w Hc Hgen) as [html Hask].
  assert (main r w
          = (Ok (),
             {| session_state :=
                  <["chat_history" :=
                      VHistory (memory c ++ [HumanMessage (user_input r);
                                             AIMessage a])]>
                    (<["convo_chain" :=
                         VChain {| retriever := retriever c;
                                   memory := memory c
                                     ++ [HumanMessage (user_input r);
                                         AIMessage a] |}]>
                       (session_state w));
                written := (written w ++ html) ++ [css];
                llm_calls := llm_calls w
                  ++ [{| question := user_input r;
                         retrieved_context :=
                           retrieve (retriever c) (user_input r);
                         history := memory c |}] |})) as ->.
  { unfold main. rewrite Hup. unfold mbind at 1. unfold M_bind at 1.
    rewrite (bool_decide_eq_true_2 _ Hq), Hask.
    unfold mbind, M_bind, mret, M_ret, st_write, not_in_session_state,
      setattr.
    cbn [session_state written llm_calls fst snd].
    rewrite (bool_decide_eq_false_2
               (<["chat_history" := _]> (<["convo_chain" := _]> _)
                  !! "convo_chain" = None))
      by (rewrite lookup_insert_ne, lookup_insert_eq; done).
    cbn [session_state].
    by rewrite (bool_decide_eq_false_2
                  (<["chat_history" := _]> _ !! "chat_history" = None))
      by (by rewrite lookup_insert_eq). }
  cbn [fst snd session_state llm_calls].
  split; [done|]. split; [|split; [apply lookup_insert_eq|done]].
  rewrite lookup_insert_ne by done. apply lookup_insert_eq.
Qed.

Lemma question_keeps_engine_witness :
  session_state
    (main (B := demo_backends) (T := demo_templates)
       (submit_question "What is a set?" [textbook]) ready_world).2
    !! "convo_chain"
  = Some (VChain
            {| retriever := ["Chapter 1" +:+ newline +:+ "Sets and maps."];
               memory := [] ++ [HumanMessage "What is a set?";
                                AIMessage "re: What is a set?"] |}).
Proof.
  pose proof (question_keeps_engine (B := demo_backends)
                (T := demo_templates)
                (submit_question "What is a set?" [textbook]) ready_world
                {| retriever :=
                     ["Chapter 1" +:+ newline +:+ "Sets and maps."];
                   memory := [] |}
                "re: What is a set?") as H.
  destruct H as (_ & Hengine & _);
    [discriminate | reflexivity | vm_compute; reflexivity | reflexivity |].
  exact Hengine.
Defined.
